(** * The varlock GitHub action ([src/index.ts]), embedded and verified

    The action checks that the [varlock] binary is reachable, looks for
    [.env] files, runs [varlock load] as a subprocess, and relays the result
    to the host platform ([@actions/core]): exported environment variables,
    masked secrets, named outputs, log lines and the failure mark.

    TypeScript's types are erased when the action runs, and
    [JSON.parse(output) as SerializedEnvGraph] checks nothing, so the
    functions are embedded over JavaScript values; the interfaces of the
    source are predicates on such values. *)

From Stdlib Require Import ZArith List String Ascii DecimalString.
From stdpp Require Import gmap strings list.

(** ** JavaScript values

    The values [JSON.parse] produces, and [undefined], which the tests pass
    as a [value]. Numbers are the integers, as [Z] (the other IEEE doubles
    are outside this model); an object is the list of its own enumerable
    properties, in property order. *)

#[warnings="-register-all"]
Inductive JsValue : Type :=
| VUndefined
| VNull
| VBool (b : bool)
| VNumber (n : Z)
| VString (s : string)
| VArray (items : list JsValue)
| VObject (props : list (string * JsValue)).

(** An exception value: [error.message], and [error.stdout], which only the
    errors of [execSync] carry. *)
Record JsError : Type := mkError {
  name : string;
  message : string;
  stdout : option string;
}.

Definition SyntaxError (msg : string) : JsError :=
  {| name := "SyntaxError"; message := msg; stdout := None |}.

Definition TypeError (msg : string) : JsError :=
  {| name := "TypeError"; message := msg; stdout := None |}.

(** [`${error}`]: [Error.prototype.toString]. *)
Definition error_toString (e : JsError) : string :=
  if String.eqb (message e) "" then name e
  else if String.eqb (name e) "" then message e
  else name e +:+ ": " +:+ message e.

Definition nat_toString (n : nat) : string :=
  NilZero.string_of_uint (Nat.to_uint n).

(** [String(value)]. An integer below 10^21 in magnitude prints in decimal. *)
Fixpoint js_String (v : JsValue) : string :=
  match v with
  | VUndefined => "undefined"
  | VNull => "null"
  | VBool true => "true"
  | VBool false => "false"
  | VNumber n => NilZero.string_of_int (Z.to_int n)
  | VString s => s
  | VArray items =>
      String.concat ","
        (List.map (fun e => match e with
                            | VUndefined | VNull => ""
                            | _ => js_String e
                            end) items)
  | VObject _ => "[object Object]"
  end.

(** [if (value)]: the truthiness of a value. *)
Definition truthy (v : JsValue) : bool :=
  match v with
  | VUndefined | VNull => false
  | VBool b => b
  | VNumber n => negb (n =? 0)%Z
  | VString s => negb (String.eqb s "")
  | VArray _ | VObject _ => true
  end.

(** [if (error.stdout)]: a missing and an empty [stdout] are both falsy. *)
Definition truthy_stdout (o : option string) : option string :=
  match o with
  | Some s => if String.eqb s "" then None else Some s
  | None => None
  end.

(** [value !== undefined && value !== null]. *)
Definition present (v : JsValue) : bool :=
  match v with
  | VUndefined | VNull => false
  | _ => true
  end.

Fixpoint own_property (props : list (string * JsValue)) (p : string)
  : option JsValue :=
  match props with
  | [] => None
  | (k, v) :: rest => if String.eqb k p then Some v else own_property rest p
  end.

(** [v.p] for the property names the action reads ([config], [value],
    [isSensitive]): none of them is inherited from a prototype, so only an
    object's own property can hold one; reading from [undefined] or [null]
    throws. *)
Definition get (v : JsValue) (p : string) : JsError + JsValue :=
  match v with
  | VUndefined =>
      inl (TypeError ("Cannot read properties of undefined (reading '" +:+ p +:+ "')"))
  | VNull =>
      inl (TypeError ("Cannot read properties of null (reading '" +:+ p +:+ "')"))
  | VObject props => inr (default VUndefined (own_property props p))
  | _ => inr VUndefined
  end.

Fixpoint indexed {A : Type} (i : nat) (l : list A) : list (string * A) :=
  match l with
  | [] => []
  | x :: rest => (nat_toString i, x) :: indexed (S i) rest
  end.

(** [Object.entries(v)]: the own enumerable properties, in property order.
    A string yields its characters (its bytes here, which are its characters
    when it is ASCII), a number or a boolean nothing. *)
Definition Object_entries (v : JsValue) : JsError + list (string * JsValue) :=
  match v with
  | VUndefined | VNull =>
      inl (TypeError "Cannot convert undefined or null to object")
  | VObject props => inr props
  | VArray items => inr (indexed 0 items)
  | VString s =>
      inr (indexed 0 (List.map (fun c => VString (String c EmptyString))
                        (list_ascii_of_string s)))
  | VBool _ | VNumber _ => inr []
  end.

(** *** Property order and assignment

    An array index is the canonical decimal text of an integer below
    2^32 - 1. An object lists its array-index keys first, in ascending
    order, then its other keys in the order of their creation. *)
Definition array_index (k : string) : option N :=
  match NilZero.uint_of_string k with
  | Some u =>
      let n := N.of_uint u in
      if String.eqb (NilZero.string_of_uint (N.to_uint n)) k && (n <? 4294967295)%N
      then Some n else None
  | None => None
  end.

Fixpoint replace_property (props : list (string * JsValue)) (k : string)
  (v : JsValue) : list (string * JsValue) :=
  match props with
  | [] => []
  | (k', v') :: rest =>
      if String.eqb k' k then (k, v) :: rest
      else (k', v') :: replace_property rest k v
  end.

Fixpoint insert_index (props : list (string * JsValue)) (n : N) (k : string)
  (v : JsValue) : list (string * JsValue) :=
  match props with
  | [] => [(k, v)]
  | (k', v') :: rest =>
      match array_index k' with
      | Some n' =>
          if (n' <? n)%N then (k', v') :: insert_index rest n k v
          else (k, v) :: props
      | None => (k, v) :: props
      end
  end.

(** [CreateDataProperty]: what [JSON.parse] and an object literal do for
    each member. *)
Definition define_property (props : list (string * JsValue)) (k : string)
  (v : JsValue) : list (string * JsValue) :=
  match own_property props k with
  | Some _ => replace_property props k v
  | None =>
      match array_index k with
      | Some n => insert_index props n k v
      | None => props ++ [(k, v)]
      end
  end.

(** [obj[k] = v] on an object made by [{}] whose properties were all made
    by such assignments. [Object.prototype] has one setter, [__proto__]:
    assigning to that key calls it and creates no own property (the setter
    changes the prototype when [v] is an object and does nothing
    otherwise). Every other key becomes or updates an own property. *)
Definition assign_property (props : list (string * JsValue)) (k : string)
  (v : JsValue) : list (string * JsValue) :=
  if String.eqb k "__proto__" then props else define_property props k v.

(** *** [JSON.stringify(value, null, 2)] *)

Definition quote_char : ascii := "034"%char.
Definition newline_char : ascii := "010"%char.
Definition newline : string := String newline_char EmptyString.

Definition hex_digit (n : N) : ascii :=
  ascii_of_N (if (n <? 10)%N then 48 + n else 87 + n).

(** One character of [QuoteJSONString]. *)
Definition quote_JSON_char (c : ascii) : string :=
  let n := N_of_ascii c in
  if (n =? 34)%N then String "\" (String quote_char EmptyString)
  else if (n =? 92)%N then "\\"
  else if (n =? 8)%N then "\b"
  else if (n =? 12)%N then "\f"
  else if (n =? 10)%N then "\n"
  else if (n =? 13)%N then "\r"
  else if (n =? 9)%N then "\t"
  else if (n <? 32)%N then
    "\u00" +:+ String (hex_digit (n / 16)) (String (hex_digit (n mod 16)) EmptyString)
  else String c EmptyString.

Definition quote_JSON_string (s : string) : string :=
  String quote_char
    (String.concat EmptyString (List.map quote_JSON_char (list_ascii_of_string s))
     +:+ String quote_char EmptyString).

(** [SerializeJSONProperty] with a gap of two spaces: [None] is the
    [undefined] that makes an object drop the member and an array print
    [null]. *)
Fixpoint serialize_JSON (indent : string) (v : JsValue) : option string :=
  match v with
  | VUndefined => None
  | VNull => Some "null"
  | VBool true => Some "true"
  | VBool false => Some "false"
  | VNumber n => Some (NilZero.string_of_int (Z.to_int n))
  | VString s => Some (quote_JSON_string s)
  | VArray items =>
      let inner := indent +:+ "  " in
      let partial :=
        List.map (fun e => default "null" (serialize_JSON inner e)) items in
      Some (match partial with
            | [] => "[]"
            | _ => "[" +:+ newline +:+ inner
                   +:+ String.concat ("," +:+ newline +:+ inner) partial
                   +:+ newline +:+ indent +:+ "]"
            end)
  | VObject props =>
      let inner := indent +:+ "  " in
      let partial :=
        List.flat_map (fun kv => match kv with
                                 | (k, e) =>
                                     match serialize_JSON inner e with
                                     | Some text => [quote_JSON_string k +:+ ": " +:+ text]
                                     | None => []
                                     end
                                 end) props in
      Some (match partial with
            | [] => "{}"
            | _ => "{" +:+ newline +:+ inner
                   +:+ String.concat ("," +:+ newline +:+ inner) partial
                   +:+ newline +:+ indent +:+ "}"
            end)
  end.

(** [JSON.stringify(obj, null, 2)] of an object: always a string. *)
Definition JSON_stringify (props : list (string * JsValue)) : string :=
  default "{}" (serialize_JSON EmptyString (VObject props)).

(** ** A reference [JSON.parse]

    The theorems hold for every [JSON.parse]; the examples run this one. It
    reads the JSON grammar with integer numbers and ASCII [\u] escapes, and
    takes any other text as a syntax error. *)

Definition is_whitespace (c : ascii) : bool :=
  let n := N_of_ascii c in
  (n =? 32)%N || (n =? 9)%N || (n =? 10)%N || (n =? 13)%N.

Fixpoint skip_whitespace (cs : list ascii) : list ascii :=
  match cs with
  | c :: rest => if is_whitespace c then skip_whitespace rest else cs
  | [] => []
  end.

Definition digit_value (c : ascii) : option Z :=
  let n := N_of_ascii c in
  if (48 <=? n)%N && (n <=? 57)%N then Some (Z.of_N (n - 48)) else None.

Definition is_digit (c : ascii) : bool :=
  match digit_value c with Some _ => true | None => false end.

Definition hex_value (c : ascii) : option N :=
  let n := N_of_ascii c in
  if (48 <=? n)%N && (n <=? 57)%N then Some (n - 48)%N
  else if (97 <=? n)%N && (n <=? 102)%N then Some (n - 87)%N
  else if (65 <=? n)%N && (n <=? 70)%N then Some (n - 55)%N
  else None.

(** The characters of a string literal after its opening quote. *)
Fixpoint parse_string_body (cs : list ascii) : option (string * list ascii) :=
  match cs with
  | [] => None
  | c :: rest =>
      if Ascii.eqb c quote_char then Some (EmptyString, rest)
      else if Ascii.eqb c "\" then
        match rest with
        | e :: rest' =>
            let escaped (x : ascii) :=
              match parse_string_body rest' with
              | Some (s, after) => Some (String x s, after)
              | None => None
              end in
            if Ascii.eqb e quote_char then escaped quote_char
            else if Ascii.eqb e "\" then escaped "\"%char
            else if Ascii.eqb e "/" then escaped "/"%char
            else if Ascii.eqb e "b" then escaped "008"%char
            else if Ascii.eqb e "f" then escaped "012"%char
            else if Ascii.eqb e "n" then escaped "010"%char
            else if Ascii.eqb e "r" then escaped "013"%char
            else if Ascii.eqb e "t" then escaped "009"%char
            else if Ascii.eqb e "u" then
              match rest' with
              | a :: b :: c' :: d :: rest'' =>
                  match hex_value a, hex_value b, hex_value c', hex_value d with
                  | Some 0%N, Some 0%N, Some h, Some l =>
                      if (h <? 8)%N then
                        match parse_string_body rest'' with
                        | Some (s, after) => Some (String (ascii_of_N (16 * h + l)) s, after)
                        | None => None
                        end
                      else None
                  | _, _, _, _ => None
                  end
              | _ => None
              end
            else None
        | [] => None
        end
      else if (N_of_ascii c <? 32)%N then None
      else
        match parse_string_body rest with
        | Some (s, after) => Some (String c s, after)
        | None => None
        end
  end.

Fixpoint parse_digits (cs : list ascii) (acc : Z) : Z * list ascii :=
  match cs with
  | c :: rest =>
      match digit_value c with
      | Some d => parse_digits rest (10 * acc + d)
      | None => (acc, cs)
      end
  | [] => (acc, [])
  end.

(** An integer literal: no leading zero, no fraction, no exponent. *)
Definition parse_number (negative : bool) (cs : list ascii) : option (JsValue * list ascii) :=
  match cs with
  | c :: rest =>
      match digit_value c with
      | Some d =>
          let '(n, after) := if (d =? 0)%Z then (0%Z, rest) else parse_digits rest d in
          match after with
          | x :: _ =>
              if is_digit x || Ascii.eqb x "." || Ascii.eqb x "e"
                 || Ascii.eqb x "E"
              then None
              else Some (VNumber (if negative then - n else n), after)
          | [] => Some (VNumber (if negative then - n else n), after)
          end
      | None => None
      end
  | [] => None
  end.

Fixpoint strip_prefix (word cs : list ascii) : option (list ascii) :=
  match word, cs with
  | [], _ => Some cs
  | w :: ws, c :: rest => if Ascii.eqb w c then strip_prefix ws rest else None
  | _ :: _, [] => None
  end.

Fixpoint parse_value (fuel : nat) (cs : list ascii) : option (JsValue * list ascii) :=
  match fuel with
  | O => None
  | S fuel' =>
      match skip_whitespace cs with
      | [] => None
      | c :: rest =>
          if Ascii.eqb c "{" then
            match skip_whitespace rest with
            | c' :: rest' =>
                if Ascii.eqb c' "}" then Some (VObject [], rest')
                else parse_members fuel' rest []
            | [] => None
            end
          else if Ascii.eqb c "[" then
            match skip_whitespace rest with
            | c' :: rest' =>
                if Ascii.eqb c' "]" then Some (VArray [], rest')
                else parse_elements fuel' rest []
            | [] => None
            end
          else if Ascii.eqb c quote_char then
            match parse_string_body rest with
            | Some (s, after) => Some (VString s, after)
            | None => None
            end
          else if Ascii.eqb c "-" then parse_number true rest
          else if is_digit c then parse_number false (c :: rest)
          else
            match strip_prefix (list_ascii_of_string "true") (c :: rest) with
            | Some after => Some (VBool true, after)
            | None =>
                match strip_prefix (list_ascii_of_string "false") (c :: rest) with
                | Some after => Some (VBool false, after)
                | None =>
                    match strip_prefix (list_ascii_of_string "null") (c :: rest) with
                    | Some after => Some (VNull, after)
                    | None => None
                    end
                end
            end
      end
  end
with parse_members (fuel : nat) (cs : list ascii) (acc : list (string * JsValue))
  : option (JsValue * list ascii) :=
  match fuel with
  | O => None
  | S fuel' =>
      match skip_whitespace cs with
      | q :: rest =>
          if Ascii.eqb q quote_char then
            match parse_string_body rest with
            | Some (k, after_key) =>
                match skip_whitespace after_key with
                | colon :: after_colon =>
                    if Ascii.eqb colon ":" then
                      match parse_value fuel' after_colon with
                      | Some (v, after_value) =>
                          match skip_whitespace after_value with
                          | sep :: after_sep =>
                              if Ascii.eqb sep "," then
                                parse_members fuel' after_sep (define_property acc k v)
                              else if Ascii.eqb sep "}" then
                                Some (VObject (define_property acc k v), after_sep)
                              else None
                          | [] => None
                          end
                      | None => None
                      end
                    else None
                | [] => None
                end
            | None => None
            end
          else None
      | [] => None
      end
  end
with parse_elements (fuel : nat) (cs : list ascii) (acc : list JsValue)
  : option (JsValue * list ascii) :=
  match fuel with
  | O => None
  | S fuel' =>
      match parse_value fuel' cs with
      | Some (v, after_value) =>
          match skip_whitespace after_value with
          | sep :: after_sep =>
              if Ascii.eqb sep "," then parse_elements fuel' after_sep (acc ++ [v])
              else if Ascii.eqb sep "]" then Some (VArray (acc ++ [v]), after_sep)
              else None
          | [] => None
          end
      | None => None
      end
  end.

Definition reference_JSON_parse (text : string) : string + JsValue :=
  let cs := list_ascii_of_string text in
  match parse_value (2 * List.length cs + 2) cs with
  | Some (v, after) =>
      match skip_whitespace after with
      | [] => inr v
      | _ :: _ => inl "Unexpected non-whitespace character after JSON"
      end
  | None => inl "Unexpected token in JSON"
  end.

(** ** [(output.match(/error/gi) || []).length]

    A global match scans from the left and resumes after the end of each
    match. Without the [u] flag, [i] compares characters by their upper
    case, and no character outside ASCII has an ASCII upper case, so the
    comparison is the same on the bytes of the text. *)

Definition canonicalize (c : ascii) : ascii :=
  let n := N_of_ascii c in
  if (97 <=? n)%N && (n <=? 122)%N then ascii_of_N (n - 32) else c.

Fixpoint matches_here (pattern text : list ascii) : bool :=
  match pattern, text with
  | [], _ => true
  | _ :: _, [] => false
  | p :: ps, c :: cs =>
      Ascii.eqb (canonicalize p) (canonicalize c) && matches_here ps cs
  end.

(** [skip] is the number of characters left of the match just found. *)
Fixpoint global_matches (pattern text : list ascii) (skip : nat) : nat :=
  match text with
  | [] => 0
  | _ :: rest =>
      match skip with
      | S k => global_matches pattern rest k
      | O =>
          if matches_here pattern text
          then S (global_matches pattern rest (List.length pattern - 1))
          else global_matches pattern rest 0
      end
  end.

Definition error_pattern : list ascii := list_ascii_of_string "error".

Definition count_error_matches (output : string) : nat :=
  global_matches error_pattern (list_ascii_of_string output) 0.

(** The number of places in the text where the token stands, whatever the
    case of its letters: what the specification calls the number of
    case-insensitive occurrences. *)
Fixpoint occurrences (pattern text : list ascii) : nat :=
  match text with
  | [] => 0
  | _ :: rest =>
      (if matches_here pattern text then 1 else 0) + occurrences pattern rest
  end.

Definition error_occurrences (output : string) : nat :=
  occurrences error_pattern (list_ascii_of_string output).

(** ** The host platform and the runtime

    [@actions/core] as the action uses it. The host keeps the inputs of the
    action, the environment exported to the later steps, the values masked
    in the logs, the named outputs, the failure mark of the run
    ([setFailed] logs its message and sets the exit code to 1), and every
    call made on it, in order. *)

Inductive CoreCall : Type :=
| CoreInfo (msg : string)
| CoreWarning (msg : string)
| CoreSetFailed (msg : string)
| CoreSetOutput (key value : string)
| CoreExportVariable (key value : string)
| CoreSetSecret (secret : string).

Record Host (W : Type) : Type := mkHost {
  world : W;
  inputs : gmap string string;
  env : gmap string string;
  secrets : gset string;
  outputs : gmap string string;
  failed : bool;
  log : list CoreCall;
}.

Arguments mkHost {W}.
Arguments world {W}.
Arguments inputs {W}.
Arguments env {W}.
Arguments secrets {W}.
Arguments outputs {W}.
Arguments failed {W}.
Arguments log {W}.

Record ExecSyncOptions : Type := {
  cwd : option string;
  stdio : string;
  encoding : option string;
}.

(** What the action does not contain: the subprocesses and the file system
    (a state [W] that [execSync] may change), and [JSON.parse], which
    returns a value or the message of the [SyntaxError] it throws. *)
Class Platform (W : Type) : Type := {
  execSync : string -> ExecSyncOptions -> W -> W * (JsError + string);
  readdirSync : string -> W -> JsError + list string;
  JSON_parse : string -> string + JsValue;
}.

Definition perform {W : Type} (c : CoreCall) (h : Host W) : Host W :=
  match c with
  | CoreInfo _ | CoreWarning _ =>
      mkHost (world h) (inputs h) (env h) (secrets h) (outputs h) (failed h)
        (log h ++ [c])
  | CoreSetFailed _ =>
      mkHost (world h) (inputs h) (env h) (secrets h) (outputs h) true
        (log h ++ [c])
  | CoreSetOutput key value =>
      mkHost (world h) (inputs h) (env h) (secrets h) (<[key:=value]> (outputs h))
        (failed h) (log h ++ [c])
  | CoreExportVariable key value =>
      mkHost (world h) (inputs h) (<[key:=value]> (env h)) (secrets h) (outputs h)
        (failed h) (log h ++ [c])
  | CoreSetSecret secret =>
      mkHost (world h) (inputs h) (env h) ({[secret]} ∪ secrets h) (outputs h)
        (failed h) (log h ++ [c])
  end.

Definition perform_all {W : Type} (calls : list CoreCall) (h : Host W) : Host W :=
  foldl (fun h c => perform c h) h calls.

(** A computation of the action: it changes the host and returns a value
    ([inr]) or throws ([inl]). *)
Definition Act (W A : Type) : Type := Host W -> Host W * (JsError + A).

#[global] Instance Act_ret {W : Type} : MRet (Act W) :=
  fun A x h => (h, inr x).

#[global] Instance Act_bind {W : Type} : MBind (Act W) :=
  fun A B f m h =>
    match m h with
    | (h', inr x) => f x h'
    | (h', inl e) => (h', inl e)
    end.

Definition throw {W A : Type} (e : JsError) : Act W A :=
  fun h => (h, inl e).

Definition try_catch {W A : Type} (body : Act W A) (handler : JsError -> Act W A)
  : Act W A :=
  fun h =>
    match body h with
    | (h', inr x) => (h', inr x)
    | (h', inl e) => handler e h'
    end.

(** A pure step that may throw. *)
Definition lift {W A : Type} (r : JsError + A) : Act W A :=
  fun h => (h, r).

Definition core {W : Type} (c : CoreCall) : Act W unit :=
  fun h => (perform c h, inr tt).

Definition core_info {W : Type} (msg : string) : Act W unit := core (CoreInfo msg).
Definition core_warning {W : Type} (msg : string) : Act W unit := core (CoreWarning msg).
Definition core_setFailed {W : Type} (msg : string) : Act W unit := core (CoreSetFailed msg).
Definition core_setOutput {W : Type} (key value : string) : Act W unit :=
  core (CoreSetOutput key value).
Definition core_exportVariable {W : Type} (key value : string) : Act W unit :=
  core (CoreExportVariable key value).
Definition core_setSecret {W : Type} (secret : string) : Act W unit :=
  core (CoreSetSecret secret).

(** [core.getInput(name)]: the value of the input, which [core] trims, or
    the empty string when the input is not set. *)
Definition core_getInput {W : Type} (key : string) : Act W string :=
  fun h => (h, inr (default "" (inputs h !! key))).

Definition set_world {W : Type} (w : W) (h : Host W) : Host W :=
  mkHost w (inputs h) (env h) (secrets h) (outputs h) (failed h) (log h).

Definition exec {W : Type} `{Platform W} (command : string) (options : ExecSyncOptions)
  : Act W string :=
  fun h =>
    let (w, r) := execSync command options (world h) in (set_world w h, r).

Definition readdir {W : Type} `{Platform W} (path : string) : Act W (list string) :=
  fun h => (h, readdirSync path (world h)).

Definition parse {W : Type} `{Platform W} (text : string) : Act W JsValue :=
  fun h => (h, match JSON_parse text with
               | inr v => inr v
               | inl msg => inl (SyntaxError msg)
               end).

(** ** The interfaces of [src/index.ts] *)

Record ActionInputs : Type := {
  workingDirectory : string;
  showSummary : bool;
  failOnError : bool;
  outputFormat : string;
}.

(** The result of [runVarlockLoad]; [envGraph] is [VUndefined] when the
    returned object has no such property. *)
Record LoadResult : Type := {
  output : string;
  errorCount : nat;
  envGraph : JsValue;
}.

(** An optional property: missing, [undefined], or as [check] wants it. *)
Definition optional (check : JsValue -> bool) (props : list (string * JsValue))
  (p : string) : bool :=
  match own_property props p with
  | None | Some VUndefined => true
  | Some v => check v
  end.

Definition is_string (v : JsValue) : bool :=
  match v with VString _ => true | _ => false end.

Definition is_boolean (v : JsValue) : bool :=
  match v with VBool _ => true | _ => false end.

(** [{ label: string; enabled: boolean; path?: string }] *)
Definition is_Source (v : JsValue) : bool :=
  match v with
  | VObject props =>
      match own_property props "label", own_property props "enabled" with
      | Some (VString _), Some (VBool _) => optional is_string props "path"
      | _, _ => false
      end
  | _ => false
  end.

(** [{ redactLogs?: boolean; preventLeaks?: boolean }] *)
Definition is_Settings (v : JsValue) : bool :=
  match v with
  | VObject props =>
      optional is_boolean props "redactLogs" && optional is_boolean props "preventLeaks"
  | _ => false
  end.

(** [{ value: any; isSensitive: boolean }] *)
Definition is_ItemInfo (v : JsValue) : bool :=
  match v with
  | VObject props =>
      match own_property props "isSensitive" with
      | Some (VBool _) => true
      | _ => false
      end
  | _ => false
  end.

(** [Record<string, { value: any; isSensitive: boolean }>]: an object, so
    its keys are distinct. *)
Definition is_Config (v : JsValue) : bool :=
  match v with
  | VObject entries =>
      bool_decide (NoDup (List.map fst entries))
      && forallb (fun entry => is_ItemInfo (snd entry)) entries
  | _ => false
  end.

(** [interface SerializedEnvGraph]: the Result Graph. *)
Definition is_SerializedEnvGraph (v : JsValue) : bool :=
  match v with
  | VObject props =>
      optional is_string props "basePath"
      && match own_property props "sources" with
         | Some (VArray sources) => forallb is_Source sources
         | _ => false
         end
      && match own_property props "settings" with
         | Some settings => is_Settings settings
         | None => false
         end
      && match own_property props "config" with
         | Some config => is_Config config
         | None => false
         end
  | _ => false
  end.

(** The entries of the config of a graph, and the parts of an entry. *)
Definition config_entries (envGraph : JsValue) : list (string * JsValue) :=
  match get envGraph "config" with
  | inr (VObject entries) => entries
  | _ => []
  end.

Definition item_value (itemInfo : JsValue) : JsValue :=
  match get itemInfo "value" with
  | inr v => v
  | inl _ => VUndefined
  end.

Definition item_isSensitive (itemInfo : JsValue) : bool :=
  match get itemInfo "isSensitive" with
  | inr v => truthy v
  | inl _ => false
  end.

(** ** The functions of [src/index.ts] *)

Section Action.
Context {W : Type} {platform : Platform W}.

Definition getInputs : Act W ActionInputs :=
  dir ← core_getInput "working-directory";
  summary ← core_getInput "show-summary";
  fail ← core_getInput "fail-on-error";
  format ← core_getInput "output-format";
  mret {| workingDirectory := if String.eqb dir "" then "." else dir;
          showSummary := String.eqb summary "true";
          failOnError := String.eqb fail "true";
          outputFormat := if String.eqb format "" then "env" else format |}.

Definition checkVarlockInstalled : Act W bool :=
  try_catch
    (exec "varlock --version" {| cwd := None; stdio := "pipe"; encoding := None |};;
     mret true)
    (fun _ => mret false).

Definition is_env_file (file : string) : bool :=
  String.eqb file ".env" || String.prefix ".env." file.

Definition checkForEnvFiles (workingDir : string) : Act W bool :=
  try_catch
    (files ← readdir workingDir;
     let envFiles := List.filter is_env_file files in
     if (0 <? List.length envFiles)%nat then
       core_info ("Found environment files: " +:+ String.concat ", " envFiles);;
       mret true
     else mret false)
    (fun error =>
       core_warning ("Error reading directory " +:+ workingDir +:+ ": "
                     +:+ error_toString error);;
       mret false).

Definition installVarlock : Act W unit :=
  core_info "Installing varlock...";;
  try_catch
    (exec "npm install -g varlock"
       {| cwd := None; stdio := "inherit"; encoding := None |};;
     mret tt)
    (fun _ =>
       try_catch
         (exec "curl -fsSL https://raw.githubusercontent.com/dmno-dev/varlock/main/install.sh | sh"
            {| cwd := None; stdio := "inherit"; encoding := None |};;
          mret tt)
         (fun error =>
            core_setFailed ("Failed to install varlock: " +:+ error_toString error))).

Definition runVarlockLoad (inputs : ActionInputs) : Act W LoadResult :=
  let defaultArgs := ["load"] in
  if showSummary inputs then
    core_info ("Running: varlock " +:+ String.concat " " defaultArgs);;
    try_catch
      (output ← exec ("varlock " +:+ String.concat " " defaultArgs)
                  {| cwd := Some (workingDirectory inputs); stdio := "pipe";
                     encoding := Some "utf8" |};
       mret {| output := output; errorCount := 0; envGraph := VUndefined |})
      (fun error =>
         match truthy_stdout (stdout error) with
         | Some output =>
             let errorCount := count_error_matches output in
             mret {| output := output; errorCount := errorCount;
                     envGraph := VUndefined |}
         | None => throw error
         end)
  else
    let internalArgs := defaultArgs ++ ["--format"; "json-full"] in
    try_catch
      (output ← exec ("varlock " +:+ String.concat " " internalArgs)
                  {| cwd := Some (workingDirectory inputs); stdio := "pipe";
                     encoding := Some "utf8" |};
       envGraph ← parse output;
       mret {| output := output; errorCount := 0; envGraph := envGraph |})
      (fun error =>
         match truthy_stdout (stdout error) with
         | Some output =>
             let errorCount := count_error_matches output in
             envGraph ← try_catch (parse output)
                          (fun _ =>
                             core_setFailed "Failed to parse varlock output.";;
                             mret VUndefined);
             mret {| output := output; errorCount := errorCount;
                     envGraph := envGraph |}
         | None => throw error
         end).

(** The loop of [setEnvironmentVariables], with its two counters. *)
Fixpoint setEnvironmentVariables_loop (entries : list (string * JsValue))
  (regularVars secretVars : nat) : Act W (nat * nat) :=
  match entries with
  | [] => mret (regularVars, secretVars)
  | (key, itemInfo) :: rest =>
      v ← lift (get itemInfo "value");
      if present v then
        let value := js_String v in
        isSensitive ← lift (get itemInfo "isSensitive");
        if truthy isSensitive then
          core_setSecret value;;
          core_exportVariable key value;;
          setEnvironmentVariables_loop rest regularVars (S secretVars)
        else
          core_exportVariable key value;;
          setEnvironmentVariables_loop rest (S regularVars) secretVars
      else setEnvironmentVariables_loop rest regularVars secretVars
  end.

Definition setEnvironmentVariables (envGraph : JsValue) : Act W unit :=
  config ← lift (get envGraph "config");
  entries ← lift (Object_entries config);
  counts ← setEnvironmentVariables_loop entries 0 0;
  core_info ("✅ Exported " +:+ nat_toString (fst counts)
             +:+ " regular environment variables and " +:+ nat_toString (snd counts)
             +:+ " secrets").

(** The loop of [outputJsonBlob]: [jsonOutput] is the object it fills. *)
Fixpoint outputJsonBlob_loop (entries : list (string * JsValue))
  (jsonOutput : list (string * JsValue)) : Act W (list (string * JsValue)) :=
  match entries with
  | [] => mret jsonOutput
  | (key, itemInfo) :: rest =>
      v ← lift (get itemInfo "value");
      if present v then outputJsonBlob_loop rest (assign_property jsonOutput key v)
      else outputJsonBlob_loop rest jsonOutput
  end.

Definition outputJsonBlob (envGraph : JsValue) : Act W unit :=
  config ← lift (get envGraph "config");
  entries ← lift (Object_entries config);
  jsonOutput ← outputJsonBlob_loop entries [];
  core_setOutput "json-env" (JSON_stringify jsonOutput);;
  core_info "✅ Output JSON blob with environment variables".

(** [run] from the check for environment files on. *)
Definition run_load (inputs : ActionInputs) : Act W unit :=
  core_info "✅ Varlock is available";;
  core_info "🔍 Checking for environment files...";;
  hasEnvFiles ← checkForEnvFiles (workingDirectory inputs);
  if negb hasEnvFiles then
    core_warning "No .env files detected";;
    core_info "This action requires environment files (e.g., .env, .env.local, .env.production)";;
    core_setFailed "No environment files found"
  else
    core_info "✅ Environment files found";;
    core_info "🚀 Loading environment variables with varlock...";;
    result ← runVarlockLoad inputs;
    core_setOutput "error-count" (nat_toString (errorCount result));;
    (if showSummary inputs then
       core_setOutput "summary" (output result);;
       core_info "📋 Environment Summary:";;
       core_info (output result)
     else mret tt);;
    (if truthy (envGraph result) then
       if String.eqb (outputFormat inputs) "env" then
         core_info "🔧 Setting environment variables...";;
         setEnvironmentVariables (envGraph result)
       else if String.eqb (outputFormat inputs) "json" then
         core_info "📄 Outputting JSON blob...";;
         outputJsonBlob (envGraph result)
       else mret tt
     else
       core_warning "Could not parse varlock output as json-full";;
       if String.eqb (outputFormat inputs) "json" then
         core_setFailed "JSON output format requires valid varlock json-full output"
       else mret tt);;
    (if (0 <? errorCount result)%nat then
       let message := "Found " +:+ nat_toString (errorCount result)
                      +:+ " validation error(s)" in
       if failOnError inputs then core_setFailed message else core_warning message
     else mret tt);;
    core_info "✅ Environment variables loaded successfully".

Definition run : Act W unit :=
  try_catch
    (inputs ← getInputs;
     core_info "🔍 Checking for varlock installation...";;
     varlockInstalled ← checkVarlockInstalled;
     if negb varlockInstalled then
       core_info "📦 Varlock not found, installing...";;
       installVarlock;;
       varlockInstalled ← checkVarlockInstalled;
       if negb varlockInstalled then core_setFailed "Failed to install varlock"
       else run_load inputs
     else run_load inputs)
    (fun error => core_setFailed ("Action failed: " +:+ message error)).

End Action.

(** ** A scripted platform, for the examples

    The world is the list of the outcomes of the subprocesses still to run
    and the outcome of reading the working directory. *)

Record Script : Type := {
  responses : list (JsError + string);
  directory : JsError + list string;
}.

Definition spawn_error : JsError :=
  {| name := "Error"; message := "spawnSync /bin/sh ENOENT"; stdout := None |}.

(** A subprocess that ended with a non-zero status after printing [out]. *)
Definition exit_error (out : string) : JsError :=
  {| name := "Error"; message := "Command failed: varlock load"; stdout := Some out |}.

#[global] Instance scripted : Platform Script := {
  execSync _ _ w :=
    match responses w with
    | r :: rest => ({| responses := rest; directory := directory w |}, r)
    | [] => (w, inl spawn_error)
    end;
  readdirSync _ w := directory w;
  JSON_parse := reference_JSON_parse;
}.

Definition initial_host {W : Type} (w : W) (ins : list (string * string)) : Host W :=
  mkHost w (list_to_map ins) ∅ ∅ ∅ false [].

(** ** The calls of the export routines, as functions of the graph *)

(** What [setEnvironmentVariables] asks of the host for one entry. *)
Definition entry_calls (entry : string * JsValue) : list CoreCall :=
  let v := item_value (snd entry) in
  if present v then
    if item_isSensitive (snd entry)
    then [CoreSetSecret (js_String v); CoreExportVariable (fst entry) (js_String v)]
    else [CoreExportVariable (fst entry) (js_String v)]
  else [].

Definition is_regular (entry : string * JsValue) : bool :=
  present (item_value (snd entry)) && negb (item_isSensitive (snd entry)).

Definition is_secret (entry : string * JsValue) : bool :=
  present (item_value (snd entry)) && item_isSensitive (snd entry).

Definition export_summary (entries : list (string * JsValue)) : string :=
  "✅ Exported " +:+ nat_toString (List.length (List.filter is_regular entries))
  +:+ " regular environment variables and "
  +:+ nat_toString (List.length (List.filter is_secret entries)) +:+ " secrets".

Definition export_calls (envGraph : JsValue) : list CoreCall :=
  List.flat_map entry_calls (config_entries envGraph)
  ++ [CoreInfo (export_summary (config_entries envGraph))].

(** The object [outputJsonBlob] has built when its loop ends. *)
Definition json_blob (entries : list (string * JsValue)) : list (string * JsValue) :=
  foldl (fun jsonOutput entry =>
           if present (item_value (snd entry))
           then assign_property jsonOutput (fst entry) (item_value (snd entry))
           else jsonOutput) [] entries.

Definition blob_calls (envGraph : JsValue) : list CoreCall :=
  [CoreSetOutput "json-env" (JSON_stringify (json_blob (config_entries envGraph)));
   CoreInfo "✅ Output JSON blob with environment variables"].

(** The effect of a sequence of calls on each part of the host. *)
Definition exported (calls : list CoreCall) : gmap string string :=
  foldl (fun m c => match c with
                    | CoreExportVariable key value => <[key:=value]> m
                    | _ => m
                    end) ∅ calls.

Definition masked (calls : list CoreCall) : gset string :=
  foldl (fun s c => match c with
                    | CoreSetSecret secret => {[secret]} ∪ s
                    | _ => s
                    end) ∅ calls.

Definition published (calls : list CoreCall) : gmap string string :=
  foldl (fun m c => match c with
                    | CoreSetOutput key value => <[key:=value]> m
                    | _ => m
                    end) ∅ calls.

Definition fails (calls : list CoreCall) : bool :=
  existsb (fun c => match c with CoreSetFailed _ => true | _ => false end) calls.

(** What [runVarlockLoad] passes to [execSync] with the command line. *)
Definition load_options (inputs : ActionInputs) : ExecSyncOptions :=
  {| cwd := Some (workingDirectory inputs); stdio := "pipe"; encoding := Some "utf8" |}.

(** A call that exports no variable and registers no secret. *)
Definition exports_nothing (c : CoreCall) : bool :=
  match c with
  | CoreExportVariable _ _ | CoreSetSecret _ => false
  | _ => true
  end.

(** From [h] to [h'] the action made only such calls: the exported
    environment and the masked secrets are as they were, and a run marked as
    failed stays so. *)
Definition quiet {W : Type} (h h' : Host W) : Prop :=
  exists calls,
    log h' = log h ++ calls /\ forallb exports_nothing calls = true /\
    env h' = env h /\ secrets h' = secrets h /\ inputs h' = inputs h /\
    (failed h = true -> failed h' = true).

(** ** Inputs for the examples *)

Definition quoted (s : string) : string :=
  String quote_char (s +:+ String quote_char EmptyString).

(** [A] is a secret, [B], [D] and [E] hold the falsy values [0], [""] and
    [false], and [C] has no value. *)
Definition example_graph : JsValue :=
  VObject
    [("sources", VArray []);
     ("settings", VObject []);
     ("config",
      VObject
        [("A", VObject [("value", VString "s3cret"); ("isSensitive", VBool true)]);
         ("B", VObject [("value", VNumber 0); ("isSensitive", VBool false)]);
         ("C", VObject [("value", VNull); ("isSensitive", VBool false)]);
         ("D", VObject [("value", VString ""); ("isSensitive", VBool false)]);
         ("E", VObject [("value", VBool false); ("isSensitive", VBool false)])])].

(** [{"sources":[],"settings":{},"config":{}}] *)
Definition empty_graph_text : string :=
  "{" +:+ quoted "sources" +:+ ":[]," +:+ quoted "settings" +:+ ":{},"
  +:+ quoted "config" +:+ ":{}}".

(** [{"sources":[],"settings":{},"config":{"__proto__":{"value":0,"isSensitive":false}}}] *)
Definition proto_graph_text : string :=
  "{" +:+ quoted "sources" +:+ ":[]," +:+ quoted "settings" +:+ ":{},"
  +:+ quoted "config" +:+ ":{" +:+ quoted "__proto__" +:+ ":{" +:+ quoted "value"
  +:+ ":0," +:+ quoted "isSensitive" +:+ ":false}}}".

Definition proto_graph : JsValue :=
  VObject
    [("sources", VArray []);
     ("settings", VObject []);
     ("config",
      VObject
        [("__proto__", VObject [("value", VNumber 0); ("isSensitive", VBool false)])])].

Definition machine_inputs : ActionInputs :=
  {| workingDirectory := "."; showSummary := false; failOnError := false;
     outputFormat := "env" |}.

Definition summary_inputs : ActionInputs :=
  {| workingDirectory := "."; showSummary := true; failOnError := false;
     outputFormat := "env" |}.

(** A host whose next subprocesses end as [rs] say, in a directory that
    holds [.env]. *)
Definition scripted_host (rs : list (JsError + string))
  (ins : list (string * string)) : Host Script :=
  initial_host {| responses := rs; directory := inr [".env"] |} ins.

(** [{"sources":[],"settings":{},"config":{"__proto__":{"value":"x","isSensitive":false},"X":{"value":1,"isSensitive":false}}}] *)
Definition proto_and_X_text : string :=
  "{" +:+ quoted "sources" +:+ ":[]," +:+ quoted "settings" +:+ ":{},"
  +:+ quoted "config" +:+ ":{" +:+ quoted "__proto__" +:+ ":{" +:+ quoted "value"
  +:+ ":" +:+ quoted "x" +:+ "," +:+ quoted "isSensitive" +:+ ":false},"
  +:+ quoted "X" +:+ ":{" +:+ quoted "value" +:+ ":1," +:+ quoted "isSensitive"
  +:+ ":false}}}".

Definition proto_and_X_graph : JsValue :=
  VObject
    [("sources", VArray []);
     ("settings", VObject []);
     ("config",
      VObject
        [("__proto__", VObject [("value", VString "x"); ("isSensitive", VBool false)]);
         ("X", VObject [("value", VNumber 1); ("isSensitive", VBool false)])])].

(** What C1 says of a call that went from [h] to [outcome]: it returned,
    left the failure mark as it was, and what it surfaced on the host are
    warnings. *)
Definition surfaces_only_a_warning {W A : Type} (h : Host W)
  (outcome : Host W * (JsError + A)) : Prop :=
  (exists x, snd outcome = inr x) /\
  failed (fst outcome) = failed h /\
  exists calls,
    log (fst outcome) = log h ++ calls /\ calls <> [] /\
    forall c, In c calls -> exists msg, c = CoreWarning msg.

(** ** The run, in parts

    Names for what [run] reads, asks and logs on its way, used to state
    what a whole run does. *)

(** The inputs as [getInputs] returns them for a host. *)
Definition read_inputs {W : Type} (h : Host W) : ActionInputs :=
  {| workingDirectory :=
       if String.eqb (default "" (inputs h !! "working-directory")) ""
       then "." else default "" (inputs h !! "working-directory");
     showSummary := String.eqb (default "" (inputs h !! "show-summary")) "true";
     failOnError := String.eqb (default "" (inputs h !! "fail-on-error")) "true";
     outputFormat :=
       if String.eqb (default "" (inputs h !! "output-format")) ""
       then "env" else default "" (inputs h !! "output-format") |}.

(** The options of the version query and of the two installers. *)
Definition version_options : ExecSyncOptions :=
  {| cwd := None; stdio := "pipe"; encoding := None |}.

Definition install_options : ExecSyncOptions :=
  {| cwd := None; stdio := "inherit"; encoding := None |}.

Definition npm_command : string := "npm install -g varlock".

Definition curl_command : string :=
  "curl -fsSL https://raw.githubusercontent.com/dmno-dev/varlock/main/install.sh | sh".

Definition is_export_call (c : CoreCall) : bool :=
  match c with CoreExportVariable _ _ => true | _ => false end.

Definition is_secret_call (c : CoreCall) : bool :=
  match c with CoreSetSecret _ => true | _ => false end.

(** An entry of a config that has a value. *)
Definition has_value (entry : string * JsValue) : bool :=
  present (item_value (snd entry)).

(** The key and the raw value of an entry, without its flag. *)
Definition key_value (entry : string * JsValue) : string * JsValue :=
  (fst entry, item_value (snd entry)).


(** What [run] logs from the end of the installation check to the load, when
    the directory holds the environment files [files]. *)
Definition load_prelude (files : list string) : list CoreCall :=
  [CoreInfo "✅ Varlock is available";
   CoreInfo "🔍 Checking for environment files...";
   CoreInfo ("Found environment files: "
             +:+ String.concat ", " (List.filter is_env_file files));
   CoreInfo "✅ Environment files found";
   CoreInfo "🚀 Loading environment variables with varlock..."].

(** The call by which [run] reports the validation errors it counted. *)
Definition policy_calls (ins : ActionInputs) (count : nat) : list CoreCall :=
  if (0 <? count)%nat then
    [(if failOnError ins then CoreSetFailed else CoreWarning)
       ("Found " +:+ nat_toString count +:+ " validation error(s)")]
  else [].

(** The calls of [run] after a load in machine mode that returned a Result
    Graph. *)
Definition relay_calls (ins : ActionInputs) (result : LoadResult) : list CoreCall :=
  CoreSetOutput "error-count" (nat_toString (errorCount result))
  :: (if String.eqb (outputFormat ins) "env" then
        CoreInfo "🔧 Setting environment variables..." :: export_calls (envGraph result)
      else if String.eqb (outputFormat ins) "json" then
        CoreInfo "📄 Outputting JSON blob..." :: blob_calls (envGraph result)
      else [])
  ++ policy_calls ins (errorCount result)
  ++ [CoreInfo "✅ Environment variables loaded successfully"].

(** A platform on which nothing can be run or read. *)
#[global] Instance nothing_runs : Platform unit := {
  execSync _ _ w := (w, inl spawn_error);
  readdirSync _ _ := inl spawn_error;
  JSON_parse := reference_JSON_parse;
}.

(** [run] after the load has returned [result]: the rest of [run_load]. *)
Definition relay {W : Type} (ins : ActionInputs) (result : LoadResult) : Act W unit :=
  core_setOutput "error-count" (nat_toString (errorCount result));;
  (if showSummary ins then
     core_setOutput "summary" (output result);;
     core_info "📋 Environment Summary:";;
     core_info (output result)
   else mret tt);;
  (if truthy (envGraph result) then
     if String.eqb (outputFormat ins) "env" then
       core_info "🔧 Setting environment variables...";;
       setEnvironmentVariables (envGraph result)
     else if String.eqb (outputFormat ins) "json" then
       core_info "📄 Outputting JSON blob...";;
       outputJsonBlob (envGraph result)
     else mret tt
   else
     core_warning "Could not parse varlock output as json-full";;
     if String.eqb (outputFormat ins) "json" then
       core_setFailed "JSON output format requires valid varlock json-full output"
     else mret tt);;
  (if (0 <? errorCount result)%nat then
     let message := "Found " +:+ nat_toString (errorCount result)
                    +:+ " validation error(s)" in
     if failOnError ins then core_setFailed message else core_warning message
   else mret tt);;
  core_info "✅ Environment variables loaded successfully".

(** The calls of [run] after a load in summary mode. *)
Definition summary_calls (ins : ActionInputs) (result : LoadResult) : list CoreCall :=
  [CoreSetOutput "error-count" (nat_toString (errorCount result));
   CoreSetOutput "summary" (output result);
   CoreInfo "📋 Environment Summary:";
   CoreInfo (output result);
   CoreWarning "Could not parse varlock output as json-full"]
  ++ (if String.eqb (outputFormat ins) "json"
      then [CoreSetFailed "JSON output format requires valid varlock json-full output"]
      else [])
  ++ policy_calls ins (errorCount result)
  ++ [CoreInfo "✅ Environment variables loaded successfully"].

(** ** More inputs for the examples *)

(** [{"sources":[],"settings":{},"config":{"API_KEY":{"value":"s3cret","isSensitive":true},"ERROR_PAGE":{"value":"/oops","isSensitive":false}}}] *)
Definition service_graph_text : string :=
  "{" +:+ quoted "sources" +:+ ":[]," +:+ quoted "settings" +:+ ":{},"
  +:+ quoted "config" +:+ ":{" +:+ quoted "API_KEY" +:+ ":{" +:+ quoted "value"
  +:+ ":" +:+ quoted "s3cret" +:+ "," +:+ quoted "isSensitive" +:+ ":true},"
  +:+ quoted "ERROR_PAGE" +:+ ":{" +:+ quoted "value" +:+ ":" +:+ quoted "/oops"
  +:+ "," +:+ quoted "isSensitive" +:+ ":false}}}".

Definition service_graph : JsValue :=
  VObject
    [("sources", VArray []);
     ("settings", VObject []);
     ("config",
      VObject
        [("API_KEY", VObject [("value", VString "s3cret"); ("isSensitive", VBool true)]);
         ("ERROR_PAGE",
          VObject [("value", VString "/oops"); ("isSensitive", VBool false)])])].

(** The world of a scripted host in which the subprocesses [rs] are still
    to come. *)
Definition scripted_world (rs : list (JsError + string)) : Script :=
  {| responses := rs; directory := inr [".env"] |}.

(** The calls of [run] after a load in machine mode that returned no Result
    Graph, or a falsy value in its place. *)
Definition no_graph_calls (ins : ActionInputs) (result : LoadResult) : list CoreCall :=
  [CoreSetOutput "error-count" (nat_toString (errorCount result));
   CoreWarning "Could not parse varlock output as json-full"]
  ++ (if String.eqb (outputFormat ins) "json"
      then [CoreSetFailed "JSON output format requires valid varlock json-full output"]
      else [])
  ++ policy_calls ins (errorCount result)
  ++ [CoreInfo "✅ Environment variables loaded successfully"].

(** * Properties *)

(** ** The count of [error]

    The token has no proper border (no end of it is also a start of it), so
    the matches a global scan finds are all its occurrences. *)

Lemma matches_here_error_unfold (c1 c2 c3 c4 c5 : ascii) (rest : list ascii) :
  matches_here error_pattern (c1 :: c2 :: c3 :: c4 :: c5 :: rest) = true <->
  canonicalize c1 = "E"%char /\ canonicalize c2 = "R"%char /\
  canonicalize c3 = "R"%char /\ canonicalize c4 = "O"%char /\
  canonicalize c5 = "R"%char.
Proof.
  change error_pattern with ["e"; "r"; "r"; "o"; "r"]%char.
  cbn [matches_here].
  change (canonicalize "e") with "E"%char.
  change (canonicalize "r") with "R"%char.
  change (canonicalize "o") with "O"%char.
  rewrite !andb_true_iff, !Ascii.eqb_eq. intuition congruence.
Qed.

Lemma matches_here_error_short (text : list ascii) :
  (List.length text < 5)%nat -> matches_here error_pattern text = false.
Proof.
  change error_pattern with ["e"; "r"; "r"; "o"; "r"]%char.
  destruct text as [|c1 [|c2 [|c3 [|c4 [|c5 rest]]]]]; cbn [matches_here List.length];
    intros Hlen; rewrite ?andb_false_r; try done; lia.
Qed.

Lemma matches_here_error_other (c : ascii) (cs : list ascii) :
  canonicalize c <> "E"%char -> matches_here error_pattern (c :: cs) = false.
Proof.
  intros Hne. destruct (matches_here error_pattern (c :: cs)) eqn:Hm; [|done].
  destruct cs as [|c2 [|c3 [|c4 [|c5 rest]]]];
    try (rewrite matches_here_error_short in Hm by (simpl; lia); discriminate).
  apply matches_here_error_unfold in Hm. tauto.
Qed.

Lemma matches_here_error_tail (c : ascii) (rest : list ascii) :
  matches_here error_pattern (c :: rest) = true ->
  forall i, (i < 4)%nat -> matches_here error_pattern (drop i rest) = false.
Proof.
  intros Hm i Hi.
  destruct rest as [|c2 [|c3 [|c4 [|c5 rest]]]];
    try (rewrite matches_here_error_short in Hm by (simpl; lia); discriminate).
  apply matches_here_error_unfold in Hm as (_ & H2 & H3 & H4 & H5).
  destruct i as [|[|[|[|i]]]]; [..|lia]; cbn [drop];
    apply matches_here_error_other; congruence.
Qed.

Lemma global_matches_error_skip (text : list ascii) (skip : nat) :
  (skip <= 4)%nat ->
  (forall i, (i < skip)%nat -> matches_here error_pattern (drop i text) = false) ->
  global_matches error_pattern text skip = occurrences error_pattern text.
Proof.
  revert skip. induction text as [|c rest IH]; intros skip Hle Hno; [done|].
  cbn [global_matches occurrences]. destruct skip as [|k].
  - destruct (matches_here error_pattern (c :: rest)) eqn:Hm.
    + cbn [List.length error_pattern]. change (List.length (list_ascii_of_string "error") - 1)%nat with 4%nat.
      simpl Nat.add. f_equal. apply IH; [done|].
      apply (matches_here_error_tail c rest Hm).
    + simpl. apply IH; [lia|]. intros i Hi. lia.
  - pose proof (Hno 0%nat ltac:(lia)) as H0. cbn [drop] in H0. rewrite H0.
    simpl Nat.add. apply IH; [lia|].
    intros i Hi. apply (Hno (S i)). lia.
Qed.

Lemma count_error_matches_occurrences (output : string) :
  count_error_matches output = error_occurrences output.
Proof.
  unfold count_error_matches, error_occurrences.
  apply global_matches_error_skip; [lia|]. intros i Hi. lia.
Qed.

(** *** Properties of objects *)

Lemma own_property_None (props : list (string * JsValue)) (k : string) :
  own_property props k = None <-> ~ In k (List.map fst props).
Proof.
  induction props as [|[k' v'] rest IH]; cbn [own_property List.map fst In]; [tauto|].
  destruct (String.eqb_spec k' k); [|tauto]. split; [done|]. intros Hn. destruct Hn. auto.
Qed.

Lemma own_property_In (props : list (string * JsValue)) (k : string) (v : JsValue) :
  NoDup (List.map fst props) -> In (k, v) props -> own_property props k = Some v.
Proof.
  induction props as [|[k' v'] rest IH]; cbn [own_property List.map fst In]; [done|].
  intros Hnd [Heq|Hin].
  - injection Heq as -> ->. by rewrite String.eqb_refl.
  - apply NoDup_cons in Hnd as [Hk Hnd]. destruct (String.eqb_spec k' k) as [->|]; [|auto].
    destruct Hk. apply list_elem_of_In. by apply (in_map fst) in Hin.
Qed.

Lemma own_property_replace (props : list (string * JsValue)) (k k' : string)
  (v : JsValue) :
  own_property props k <> None ->
  own_property (replace_property props k v) k' =
  if String.eqb k k' then Some v else own_property props k'.
Proof.
  induction props as [|[k0 v0] rest IH]; cbn [own_property replace_property]; [done|].
  destruct (String.eqb_spec k0 k) as [->|Hne]; intros Hsome; cbn [own_property].
  - by destruct (String.eqb k k').
  - rewrite (IH Hsome). destruct (String.eqb_spec k0 k') as [->|]; [|done].
    by destruct (String.eqb_spec k k').
Qed.

Lemma own_property_insert_index (props : list (string * JsValue)) (n : N)
  (k k' : string) (v : JsValue) :
  own_property props k = None ->
  own_property (insert_index props n k v) k' =
  if String.eqb k k' then Some v else own_property props k'.
Proof.
  induction props as [|[k0 v0] rest IH]; cbn [own_property insert_index]; [done|].
  destruct (String.eqb_spec k0 k) as [->|Hne]; [done|]. intros Hnone.
  destruct (array_index k0) as [n0|]; [destruct (n0 <? n)%N|]; cbn [own_property];
    rewrite ?(IH Hnone); try done.
  destruct (String.eqb_spec k0 k') as [->|]; [|done].
  by destruct (String.eqb_spec k k').
Qed.

Lemma own_property_app (props : list (string * JsValue)) (k k' : string)
  (v : JsValue) :
  own_property props k = None ->
  own_property (props ++ [(k, v)]) k' =
  if String.eqb k k' then Some v else own_property props k'.
Proof.
  induction props as [|[k0 v0] rest IH]; cbn [own_property app].
  - by destruct (String.eqb k k').
  - destruct (String.eqb_spec k0 k) as [->|Hne]; [done|]. intros Hnone.
    rewrite (IH Hnone). destruct (String.eqb_spec k0 k') as [->|]; [|done].
    by destruct (String.eqb_spec k k').
Qed.

Lemma own_property_define (props : list (string * JsValue)) (k k' : string)
  (v : JsValue) :
  own_property (define_property props k v) k' =
  if String.eqb k k' then Some v else own_property props k'.
Proof.
  unfold define_property. destruct (own_property props k) eqn:Hk.
  - apply own_property_replace. by rewrite Hk.
  - destruct (array_index k).
    + by apply own_property_insert_index.
    + by apply own_property_app.
Qed.

Lemma own_property_assign (props : list (string * JsValue)) (k k' : string)
  (v : JsValue) :
  own_property (assign_property props k v) k' =
  if String.eqb k "__proto__" then own_property props k'
  else if String.eqb k k' then Some v else own_property props k'.
Proof.
  unfold assign_property. destruct (String.eqb k "__proto__"); [done|].
  apply own_property_define.
Qed.

(** The value [outputJsonBlob] publishes under a key. *)
Lemma json_blob_fold_lookup (entries acc : list (string * JsValue)) (key : string) :
  NoDup (List.map fst entries) ->
  own_property
    (foldl (fun jsonOutput entry =>
              if present (item_value (snd entry))
              then assign_property jsonOutput (fst entry) (item_value (snd entry))
              else jsonOutput) acc entries) key =
  match own_property entries key with
  | Some itemInfo =>
      if present (item_value itemInfo) && negb (String.eqb key "__proto__")
      then Some (item_value itemInfo) else own_property acc key
  | None => own_property acc key
  end.
Proof.
  revert acc. induction entries as [|[k itemInfo] rest IH]; intros acc Hnd; [done|].
  cbn [List.map fst] in Hnd. apply NoDup_cons in Hnd as [Hk Hnd].
  cbn [foldl own_property fst snd]. rewrite (IH _ Hnd).
  destruct (String.eqb_spec k key) as [->|Hne].
  - assert (Hrest : own_property rest key = None).
    { apply own_property_None. intros Hin. apply Hk. by apply list_elem_of_In. }
    rewrite Hrest. destruct (present (item_value itemInfo)); [|done].
    rewrite own_property_assign, String.eqb_refl. cbn [andb].
    by destruct (String.eqb key "__proto__").
  - assert (Hacc : own_property
                     (if present (item_value itemInfo)
                      then assign_property acc k (item_value itemInfo) else acc) key
                   = own_property acc key).
    { destruct (present (item_value itemInfo)); [|done].
      rewrite own_property_assign. destruct (String.eqb k "__proto__"); [done|].
      by destruct (String.eqb_spec k key). }
    by rewrite Hacc.
Qed.

Lemma json_blob_lookup (entries : list (string * JsValue)) (key : string) :
  NoDup (List.map fst entries) ->
  own_property (json_blob entries) key =
  match own_property entries key with
  | Some itemInfo =>
      if present (item_value itemInfo) && negb (String.eqb key "__proto__")
      then Some (item_value itemInfo) else None
  | None => None
  end.
Proof. intros Hnd. unfold json_blob. by rewrite json_blob_fold_lookup. Qed.

(** ** The action *)

Section Properties.
Context {W : Type}.

Lemma bind_run {A B : Type} (m : Act W A) (f : A -> Act W B) (h : Host W) :
  (m ≫= f) h = match m h with
               | (h', inr x) => f x h'
               | (h', inl e) => (h', inl e)
               end.
Proof. reflexivity. Qed.

Lemma bind_core {B : Type} (c : CoreCall) (f : unit -> Act W B) (h : Host W) :
  (core c ≫= f) h = f tt (perform c h).
Proof. reflexivity. Qed.

Lemma bind_lift {A B : Type} (r : JsError + A) (f : A -> Act W B) (h : Host W) :
  (lift r ≫= f) h = match r with inr x => f x h | inl e => (h, inl e) end.
Proof. by destruct r. Qed.

Lemma bind_mret {A B : Type} (x : A) (f : A -> Act W B) (h : Host W) :
  (mret x ≫= f) h = f x h.
Proof. reflexivity. Qed.

Ltac unfold_core :=
  unfold core_info, core_warning, core_setFailed, core_setOutput,
    core_exportVariable, core_setSecret in *.

Ltac act_simpl :=
  unfold_core;
  repeat first [rewrite bind_core | rewrite bind_mret | rewrite bind_lift].

Lemma perform_all_app (a b : list CoreCall) (h : Host W) :
  perform_all (a ++ b) h = perform_all b (perform_all a h).
Proof. unfold perform_all. apply foldl_app. Qed.

Lemma log_perform (c : CoreCall) (h : Host W) : log (perform c h) = log h ++ [c].
Proof. by destruct c. Qed.

Lemma log_perform_all (calls : list CoreCall) (h : Host W) :
  log (perform_all calls h) = log h ++ calls.
Proof.
  revert h. induction calls as [|c calls IH]; intros h; simpl.
  - by rewrite app_nil_r.
  - change (perform_all (c :: calls) h) with (perform_all calls (perform c h)).
    rewrite IH, log_perform, <- app_assoc. done.
Qed.

Lemma is_ItemInfo_get (itemInfo : JsValue) :
  is_ItemInfo itemInfo = true ->
  get itemInfo "value" = inr (item_value itemInfo) /\
  get itemInfo "isSensitive" = inr (VBool (item_isSensitive itemInfo)).
Proof.
  unfold item_value, item_isSensitive.
  destruct itemInfo as [| | | | | |props]; try discriminate. simpl.
  destruct (own_property props "isSensitive") as [[]|]; try discriminate. done.
Qed.

Lemma is_SerializedEnvGraph_config (envGraph : JsValue) :
  is_SerializedEnvGraph envGraph = true ->
  get envGraph "config" = inr (VObject (config_entries envGraph)) /\
  NoDup (List.map fst (config_entries envGraph)) /\
  Forall (fun entry => is_ItemInfo (snd entry) = true) (config_entries envGraph).
Proof.
  unfold config_entries.
  destruct envGraph as [| | | | | |props]; try discriminate. simpl.
  rewrite !andb_true_iff. intros (_ & Hc).
  destruct (own_property props "config") as [config|]; [|discriminate]. simpl.
  destruct config as [| | | | | |entries]; try discriminate. simpl in Hc.
  apply andb_true_iff in Hc as [Hnd Hall].
  split; [done|]. split.
  - by apply bool_decide_eq_true in Hnd.
  - rewrite forallb_forall in Hall. apply List.Forall_forall. exact Hall.
Qed.

Context {platform : Platform W}.

Lemma setEnvironmentVariables_loop_calls (entries : list (string * JsValue))
  (regularVars secretVars : nat) (h : Host W) :
  Forall (fun entry => is_ItemInfo (snd entry) = true) entries ->
  setEnvironmentVariables_loop entries regularVars secretVars h =
  (perform_all (List.flat_map entry_calls entries) h,
   inr (regularVars + List.length (List.filter is_regular entries),
        secretVars + List.length (List.filter is_secret entries)))%nat.
Proof.
  intros Hall. revert regularVars secretVars h.
  induction Hall as [|[key itemInfo] rest Hitem _ IH]; intros regularVars secretVars h.
  - simpl. unfold mret, Act_ret. by rewrite !Nat.add_0_r.
  - destruct (is_ItemInfo_get _ Hitem) as [Hv Hs]. simpl in Hv, Hs.
    cbn [setEnvironmentVariables_loop]. act_simpl. rewrite Hv.
    cbn [flat_map List.filter]. unfold entry_calls at 1, is_regular at 1, is_secret at 1.
    cbn [fst snd].
    destruct (present (item_value itemInfo)) eqn:Hp.
    + act_simpl. rewrite Hs. cbn [truthy].
      destruct (item_isSensitive itemInfo) eqn:Hsens; cbn [negb andb];
        act_simpl; rewrite IH; cbn [app List.length];
        rewrite ?Nat.add_succ_r; reflexivity.
    + cbn [andb app]. apply IH.
Qed.

Lemma setEnvironmentVariables_calls (envGraph : JsValue) (h : Host W) :
  is_SerializedEnvGraph envGraph = true ->
  setEnvironmentVariables envGraph h = (perform_all (export_calls envGraph) h, inr tt).
Proof.
  intros Hg. destruct (is_SerializedEnvGraph_config _ Hg) as (Hc & _ & Hall).
  unfold setEnvironmentVariables. act_simpl. rewrite Hc. cbn [Object_entries].
  act_simpl. rewrite bind_run, (setEnvironmentVariables_loop_calls _ _ _ _ Hall).
  unfold export_calls. rewrite perform_all_app. reflexivity.
Qed.

Lemma outputJsonBlob_loop_blob (entries jsonOutput : list (string * JsValue))
  (h : Host W) :
  Forall (fun entry => is_ItemInfo (snd entry) = true) entries ->
  outputJsonBlob_loop entries jsonOutput h =
  (h, inr (foldl (fun jsonOutput entry =>
                    if present (item_value (snd entry))
                    then assign_property jsonOutput (fst entry) (item_value (snd entry))
                    else jsonOutput) jsonOutput entries)).
Proof.
  intros Hall. revert jsonOutput.
  induction Hall as [|[key itemInfo] rest Hitem _ IH]; intros jsonOutput; [done|].
  destruct (is_ItemInfo_get _ Hitem) as [Hv _]. simpl in Hv.
  cbn [outputJsonBlob_loop foldl fst snd]. act_simpl. rewrite Hv.
  destruct (present (item_value itemInfo)); apply IH.
Qed.

Lemma outputJsonBlob_calls (envGraph : JsValue) (h : Host W) :
  is_SerializedEnvGraph envGraph = true ->
  outputJsonBlob envGraph h = (perform_all (blob_calls envGraph) h, inr tt).
Proof.
  intros Hg. destruct (is_SerializedEnvGraph_config _ Hg) as (Hc & _ & Hall).
  unfold outputJsonBlob. act_simpl. rewrite Hc. cbn [Object_entries].
  act_simpl. rewrite bind_run, (outputJsonBlob_loop_blob _ _ _ Hall).
  act_simpl. reflexivity.
Qed.

(** *** Facts about the calls of one entry *)

Lemma entry_calls_export (entry : string * JsValue) (key value : string) :
  In (CoreExportVariable key value) (entry_calls entry) -> key = fst entry.
Proof.
  unfold entry_calls.
  destruct (present _); [|done]. destruct (item_isSensitive _); simpl; intros Hin.
  - destruct Hin as [Hin|[Hin|[]]]; congruence.
  - destruct Hin as [Hin|[]]; congruence.
Qed.

Lemma flat_map_entry_calls_export (entries : list (string * JsValue))
  (key value : string) :
  In (CoreExportVariable key value) (List.flat_map entry_calls entries) ->
  In key (List.map fst entries).
Proof.
  rewrite in_flat_map. intros (entry & Hin & Hc).
  apply entry_calls_export in Hc. subst. by apply in_map.
Qed.

Lemma entry_calls_secret (entry : string * JsValue) (secret : string) :
  In (CoreSetSecret secret) (entry_calls entry) ->
  is_secret entry = true /\ secret = js_String (item_value (snd entry)).
Proof.
  unfold entry_calls, is_secret.
  destruct (present _); [|done]. destruct (item_isSensitive _); simpl; intros Hin.
  - destruct Hin as [Hin|[Hin|[]]]; [split; congruence|discriminate].
  - destruct Hin as [Hin|[]]; discriminate.
Qed.

Lemma entry_calls_last (entry : string * JsValue) (c : CoreCall) :
  last (entry_calls entry) = Some c -> exists key value, c = CoreExportVariable key value.
Proof.
  unfold entry_calls.
  destruct (present _); [|done]. destruct (item_isSensitive _); simpl; intros Hl;
    inversion Hl; eauto.
Qed.

Lemma flat_map_entry_calls_last (entries : list (string * JsValue)) (c : CoreCall) :
  last (List.flat_map entry_calls entries) = Some c ->
  exists key value, c = CoreExportVariable key value.
Proof.
  induction entries as [|entry rest IH] using rev_ind; [done|].
  rewrite flat_map_app. cbn [flat_map]. rewrite app_nil_r.
  destruct (entry_calls entry) as [|c0 cs] eqn:Hcalls.
  - rewrite app_nil_r. exact IH.
  - rewrite last_app. rewrite <- Hcalls.
    destruct (last (entry_calls entry)) as [c'|] eqn:Hl.
    + intros [= <-]. by eapply entry_calls_last.
    + rewrite Hcalls in Hl. by apply last_None in Hl.
Qed.

Lemma NoDup_keys_split {A : Type} (l1 l2 : list (string * A)) (key : string) (x : A) :
  NoDup (List.map fst (l1 ++ (key, x) :: l2)) ->
  ~ In key (List.map fst l1) /\ ~ In key (List.map fst l2).
Proof.
  rewrite map_app. cbn [List.map fst]. intros Hnd.
  apply NoDup_ListNoDup, NoDup_remove_2 in Hnd.
  rewrite in_app_iff in Hnd. tauto.
Qed.

Lemma NoDup_keys_unique {A : Type} (l : list (string * A)) (key : string) (x y : A) :
  NoDup (List.map fst l) -> In (key, x) l -> In (key, y) l -> x = y.
Proof.
  intros Hnd Hx Hy. apply in_split in Hx as (l1 & l2 & ->).
  apply NoDup_keys_split in Hnd as [H1 H2].
  apply in_app_iff in Hy as [Hy|[Hy|Hy]].
  - destruct H1. by apply (in_map fst) in Hy.
  - congruence.
  - destruct H2. by apply (in_map fst) in Hy.
Qed.

(** C3. For every Result Graph, [setEnvironmentVariables] returns, and in
    the calls it makes on the host, in order: an entry that is sensitive and
    has a value has its text registered with [setSecret] immediately before
    its one export; an entry that is not sensitive and has a value is
    exported once, by a call that no [setSecret] call immediately precedes;
    the key of an entry with no value is never exported; and every
    registered secret is the text of a sensitive entry with a value. *)
Theorem setEnvironmentVariables_masks_before_export (envGraph : JsValue) (h : Host W) :
  is_SerializedEnvGraph envGraph = true ->
  exists (h' : Host W) (calls : list CoreCall),
    setEnvironmentVariables envGraph h = (h', inr tt) /\
    log h' = log h ++ calls /\
    (forall key itemInfo,
        In (key, itemInfo) (config_entries envGraph) ->
        let value := js_String (item_value itemInfo) in
        (present (item_value itemInfo) = true -> item_isSensitive itemInfo = true ->
         exists before after,
           calls = before ++ CoreSetSecret value :: CoreExportVariable key value :: after /\
           (forall v, ~ In (CoreExportVariable key v) (before ++ after))) /\
        (present (item_value itemInfo) = true -> item_isSensitive itemInfo = false ->
         exists before after,
           calls = before ++ CoreExportVariable key value :: after /\
           (forall secret, last before <> Some (CoreSetSecret secret)) /\
           (forall v, ~ In (CoreExportVariable key v) (before ++ after))) /\
        (present (item_value itemInfo) = false ->
         forall v, ~ In (CoreExportVariable key v) calls)) /\
    (forall secret,
        In (CoreSetSecret secret) calls ->
        exists key itemInfo,
          In (key, itemInfo) (config_entries envGraph) /\
          present (item_value itemInfo) = true /\
          item_isSensitive itemInfo = true /\
          secret = js_String (item_value itemInfo)).
Proof.
  intros Hg. destruct (is_SerializedEnvGraph_config _ Hg) as (_ & Hnd & _).
  exists (perform_all (export_calls envGraph) h), (export_calls envGraph).
  split; [by apply setEnvironmentVariables_calls|].
  split; [apply log_perform_all|].
  unfold export_calls. set (entries := config_entries envGraph) in *.
  set (summary := CoreInfo (export_summary entries)).
  split.
  - intros key itemInfo Hin.
    destruct (in_split _ _ Hin) as (l1 & l2 & Hsplit).
    assert (Hfresh : forall v,
               ~ In (CoreExportVariable key v)
                   (List.flat_map entry_calls l1
                    ++ List.flat_map entry_calls l2 ++ [summary])).
    { rewrite Hsplit in Hnd. apply NoDup_keys_split in Hnd as [H1 H2].
      intros v. rewrite !in_app_iff. intros [Hv|[Hv|[Hv|[]]]].
      - by apply flat_map_entry_calls_export in Hv.
      - by apply flat_map_entry_calls_export in Hv.
      - discriminate. }
    assert (Hcalls : List.flat_map entry_calls entries ++ [summary] =
                     List.flat_map entry_calls l1
                     ++ entry_calls (key, itemInfo)
                     ++ List.flat_map entry_calls l2 ++ [summary]).
    { rewrite Hsplit, flat_map_app. cbn [flat_map]. by rewrite <- !app_assoc. }
    rewrite Hcalls. clear Hcalls.
    assert (Hentry : entry_calls (key, itemInfo) =
              if present (item_value itemInfo) then
                if item_isSensitive itemInfo
                then [CoreSetSecret (js_String (item_value itemInfo));
                      CoreExportVariable key (js_String (item_value itemInfo))]
                else [CoreExportVariable key (js_String (item_value itemInfo))]
              else []) by reflexivity.
    rewrite Hentry. clear Hentry.
    split; [|split].
    + intros -> ->. exists (List.flat_map entry_calls l1),
        (List.flat_map entry_calls l2 ++ [summary]). done.
    + intros -> ->. exists (List.flat_map entry_calls l1),
        (List.flat_map entry_calls l2 ++ [summary]).
      split; [done|]. split; [|done].
      intros secret Hl. apply flat_map_entry_calls_last in Hl as (k & v & Hl).
      discriminate.
    + intros -> v. cbn [app]. apply Hfresh.
  - intros secret. rewrite in_app_iff, in_flat_map.
    intros [([key itemInfo] & Hin & Hs)|[Hs|[]]]; [|discriminate].
    apply entry_calls_secret in Hs as [Hs ->]. unfold is_secret in Hs.
    apply andb_true_iff in Hs as [Hp Hs]. by exists key, itemInfo.
Qed.

(** *** The host after a sequence of calls *)

Lemma perform_all_snoc (calls : list CoreCall) (c : CoreCall) (h : Host W) :
  perform_all (calls ++ [c]) h = perform c (perform_all calls h).
Proof. by rewrite perform_all_app. Qed.

Lemma env_perform_all (calls : list CoreCall) (h : Host W) :
  env (perform_all calls h) = exported calls ∪ env h.
Proof.
  induction calls as [|c calls IH] using rev_ind.
  - unfold perform_all, exported. cbn [foldl]. by rewrite (left_id_L ∅ (∪)).
  - rewrite perform_all_snoc. unfold exported in *. rewrite foldl_app. cbn [foldl].
    destruct c; cbn [perform env]; rewrite IH; try done.
    by rewrite insert_union_l.
Qed.

Lemma outputs_perform_all (calls : list CoreCall) (h : Host W) :
  outputs (perform_all calls h) = published calls ∪ outputs h.
Proof.
  induction calls as [|c calls IH] using rev_ind.
  - unfold perform_all, published. cbn [foldl]. by rewrite (left_id_L ∅ (∪)).
  - rewrite perform_all_snoc. unfold published in *. rewrite foldl_app. cbn [foldl].
    destruct c; cbn [perform outputs]; rewrite IH; try done.
    by rewrite insert_union_l.
Qed.

Lemma secrets_perform_all (calls : list CoreCall) (h : Host W) :
  secrets (perform_all calls h) = masked calls ∪ secrets h.
Proof.
  induction calls as [|c calls IH] using rev_ind.
  - unfold perform_all, masked. cbn [foldl]. by rewrite (left_id_L ∅ (∪)).
  - rewrite perform_all_snoc. unfold masked in *. rewrite foldl_app. cbn [foldl].
    destruct c; cbn [perform secrets]; rewrite IH; try done.
    by rewrite (assoc_L (∪)).
Qed.

Lemma failed_perform_all (calls : list CoreCall) (h : Host W) :
  failed (perform_all calls h) = fails calls || failed h.
Proof.
  induction calls as [|c calls IH] using rev_ind; [done|].
  rewrite perform_all_snoc. unfold fails in *. rewrite existsb_app. cbn [existsb].
  destruct c; cbn [perform failed]; rewrite ?IH, ?orb_false_r, ?orb_true_r; done.
Qed.

Lemma perform_all_twice (calls : list CoreCall) (h : Host W) :
  let h1 := perform_all calls h in
  let h2 := perform_all calls h1 in
  log h1 = log h ++ calls /\ log h2 = log h1 ++ calls /\
  env h2 = env h1 /\ secrets h2 = secrets h1 /\
  outputs h2 = outputs h1 /\ failed h2 = failed h1.
Proof.
  cbn zeta. rewrite !log_perform_all, !env_perform_all, !secrets_perform_all,
    !outputs_perform_all, !failed_perform_all.
  rewrite !(assoc_L (∪)), !(idemp_L (∪)), orb_assoc, orb_diag. done.
Qed.

(** C8. Calling [setEnvironmentVariables] twice, or [outputJsonBlob] twice,
    with the same Result Graph: both calls return, the second makes the
    calls the first made, and leaves the exported environment, the masked
    secrets, the outputs and the failure mark as the first call left them. *)
Theorem export_routines_idempotent (envGraph : JsValue) (h : Host W) :
  is_SerializedEnvGraph envGraph = true ->
  (exists (h1 h2 : Host W) (calls : list CoreCall),
      setEnvironmentVariables envGraph h = (h1, inr tt) /\
      setEnvironmentVariables envGraph h1 = (h2, inr tt) /\
      log h1 = log h ++ calls /\ log h2 = log h1 ++ calls /\
      env h2 = env h1 /\ secrets h2 = secrets h1 /\
      outputs h2 = outputs h1 /\ failed h2 = failed h1) /\
  (exists (h1 h2 : Host W) (calls : list CoreCall),
      outputJsonBlob envGraph h = (h1, inr tt) /\
      outputJsonBlob envGraph h1 = (h2, inr tt) /\
      log h1 = log h ++ calls /\ log h2 = log h1 ++ calls /\
      env h2 = env h1 /\ secrets h2 = secrets h1 /\
      outputs h2 = outputs h1 /\ failed h2 = failed h1).
Proof.
  intros Hg. split.
  - exists (perform_all (export_calls envGraph) h),
      (perform_all (export_calls envGraph) (perform_all (export_calls envGraph) h)),
      (export_calls envGraph).
    rewrite !setEnvironmentVariables_calls by done.
    split; [done|]. split; [done|]. apply perform_all_twice.
  - exists (perform_all (blob_calls envGraph) h),
      (perform_all (blob_calls envGraph) (perform_all (blob_calls envGraph) h)),
      (blob_calls envGraph).
    rewrite !outputJsonBlob_calls by done.
    split; [done|]. split; [done|]. apply perform_all_twice.
Qed.

(** *** The load *)

Lemma bind_exec {B : Type} (command : string) (options : ExecSyncOptions)
  (f : string -> Act W B) (h : Host W) :
  (exec command options ≫= f) h =
  match execSync command options (world h) with
  | (w, inr out) => f out (set_world w h)
  | (w, inl e) => (set_world w h, inl e)
  end.
Proof.
  rewrite bind_run. unfold exec.
  by destruct (execSync command options (world h)) as [w [e|out]].
Qed.

Lemma try_catch_run {A : Type} (body : Act W A) (handler : JsError -> Act W A)
  (h : Host W) :
  try_catch body handler h = match body h with
                             | (h', inr x) => (h', inr x)
                             | (h', inl e) => handler e h'
                             end.
Proof. reflexivity. Qed.

Lemma truthy_stdout_Some (o : option string) (out : string) :
  truthy_stdout o = Some out <-> o = Some out /\ out <> "".
Proof.
  unfold truthy_stdout. destruct o as [s|]; [|split; [done|intros [? _]; done]].
  destruct (String.eqb_spec s ""); split; try done.
  - intros [[= ->] ?]. done.
  - intros [= ->]. done.
  - intros [[= ->] ?]. done.
Qed.

Lemma truthy_stdout_None (o : option string) :
  truthy_stdout o = None <-> o = None \/ o = Some "".
Proof.
  unfold truthy_stdout. destruct o as [s|]; [|split; [by left|done]].
  destruct (String.eqb_spec s ""); split; try done.
  - intros _. right. by subst.
  - intros [|[= ->]]; done.
Qed.

Lemma world_perform (c : CoreCall) (h : Host W) : world (perform c h) = world h.
Proof. by destruct c. Qed.


(** C6. In summary mode and in machine mode alike: when the subprocess of
    [runVarlockLoad] fails and the error carries no stdout (none at all, or
    an empty one), [runVarlockLoad] throws that same error to its caller
    and returns no result. *)
Theorem runVarlockLoad_rethrows (inputs : ActionInputs) (h : Host W) (w : W)
  (error : JsError) :
  execSync (if showSummary inputs then "varlock load"
            else "varlock load --format json-full")
    (load_options inputs) (world h) = (w, inl error) ->
  stdout error = None \/ stdout error = Some "" ->
  exists h', runVarlockLoad inputs h = (h', inl error).
Proof.
  intros Hexec Hout. apply truthy_stdout_None in Hout.
  unfold runVarlockLoad. revert Hexec. destruct (showSummary inputs); intros Hexec.
  - act_simpl. rewrite try_catch_run, bind_exec.
    change ("varlock " +:+ String.concat " " ["load"]) with "varlock load".
    fold (load_options inputs). rewrite world_perform, Hexec, Hout. by eexists.
  - rewrite try_catch_run, bind_exec.
    change ("varlock " +:+ String.concat " " (["load"] ++ ["--format"; "json-full"]))
      with "varlock load --format json-full".
    fold (load_options inputs). rewrite Hexec, Hout. by eexists.
Qed.

Lemma runVarlockLoad_summary_run (inputs : ActionInputs) (h : Host W) :
  showSummary inputs = true ->
  runVarlockLoad inputs h =
  let h1 := perform (CoreInfo "Running: varlock load") h in
  match execSync "varlock load" (load_options inputs) (world h) with
  | (w, inr out) =>
      (set_world w h1, inr {| output := out; errorCount := 0; envGraph := VUndefined |})
  | (w, inl error) =>
      match truthy_stdout (stdout error) with
      | Some out =>
          (set_world w h1,
           inr {| output := out; errorCount := count_error_matches out;
                  envGraph := VUndefined |})
      | None => (set_world w h1, inl error)
      end
  end.
Proof.
  intros Hs. unfold runVarlockLoad. rewrite Hs. act_simpl.
  rewrite try_catch_run, bind_exec.
  change ("varlock " +:+ String.concat " " ["load"]) with "varlock load".
  fold (load_options inputs). rewrite world_perform. cbn zeta.
  destruct (execSync "varlock load" (load_options inputs) (world h)) as [w [error|out]];
    [|done].
  by destruct (truthy_stdout (stdout error)).
Qed.

Lemma runVarlockLoad_machine_run (inputs : ActionInputs) (h : Host W) :
  showSummary inputs = false ->
  runVarlockLoad inputs h =
  match execSync "varlock load --format json-full" (load_options inputs) (world h) with
  | (w, inr out) =>
      match JSON_parse out with
      | inr graph =>
          (set_world w h, inr {| output := out; errorCount := 0; envGraph := graph |})
      | inl msg => (set_world w h, inl (SyntaxError msg))
      end
  | (w, inl error) =>
      match truthy_stdout (stdout error) with
      | Some out =>
          match JSON_parse out with
          | inr graph =>
              (set_world w h,
               inr {| output := out; errorCount := count_error_matches out;
                      envGraph := graph |})
          | inl _ =>
              (perform (CoreSetFailed "Failed to parse varlock output.") (set_world w h),
               inr {| output := out; errorCount := count_error_matches out;
                      envGraph := VUndefined |})
          end
      | None => (set_world w h, inl error)
      end
  end.
Proof.
  intros Hs. unfold runVarlockLoad. rewrite Hs.
  rewrite try_catch_run, bind_exec.
  change ("varlock " +:+ String.concat " " (["load"] ++ ["--format"; "json-full"]))
    with "varlock load --format json-full".
  fold (load_options inputs).
  destruct (execSync "varlock load --format json-full" (load_options inputs) (world h))
    as [w [error|out]].
  - destruct (truthy_stdout (stdout error)) as [out|]; [|done].
    rewrite bind_run, try_catch_run. unfold parse.
    destruct (JSON_parse out); done.
  - rewrite bind_run. unfold parse. destruct (JSON_parse out); done.
Qed.

(** C7. In summary mode [runVarlockLoad] returns [errorCount] 0 when the
    subprocess exits with zero; when it exits with non-zero and some stdout
    was captured, it returns that stdout as the output and, as [errorCount],
    the number of case-insensitive occurrences of the token error in it; and
    whatever it returns holds no Result Graph. *)
Theorem runVarlockLoad_summary (inputs : ActionInputs) (h : Host W) :
  showSummary inputs = true ->
  (forall w out,
      execSync "varlock load" (load_options inputs) (world h) = (w, inr out) ->
      exists h',
        runVarlockLoad inputs h =
        (h', inr {| output := out; errorCount := 0; envGraph := VUndefined |})) /\
  (forall w error out,
      execSync "varlock load" (load_options inputs) (world h) = (w, inl error) ->
      stdout error = Some out -> out <> "" ->
      exists h',
        runVarlockLoad inputs h =
        (h', inr {| output := out; errorCount := error_occurrences out;
                    envGraph := VUndefined |})) /\
  (forall h' result,
      runVarlockLoad inputs h = (h', inr result) -> envGraph result = VUndefined).
Proof.
  intros Hs. rewrite (runVarlockLoad_summary_run _ _ Hs). cbn zeta.
  split; [|split].
  - intros w out ->. by eexists.
  - intros w error out -> Hout Hne.
    assert (Ht : truthy_stdout (stdout error) = Some out)
      by by apply truthy_stdout_Some.
    rewrite Ht, count_error_matches_occurrences. by eexists.
  - intros h' result.
    destruct (execSync "varlock load" (load_options inputs) (world h)) as [w [error|out]].
    + destruct (truthy_stdout (stdout error)); [|done]. by intros [= _ <-].
    + by intros [= _ <-].
Qed.

(** C1, amended. In machine mode, when the subprocess exits with non-zero,
    some stdout was captured and that stdout does not parse,
    [runVarlockLoad] returns (it does not throw) the raw text with no Result
    Graph, and the one call it makes on the host is
    [core.setFailed('Failed to parse varlock output.')]: the run is marked
    as failed, and no warning is logged. *)
Theorem runVarlockLoad_unparseable_output (inputs : ActionInputs) (h : Host W)
  (w : W) (error : JsError) (out msg : string) :
  showSummary inputs = false ->
  execSync "varlock load --format json-full" (load_options inputs) (world h)
  = (w, inl error) ->
  stdout error = Some out -> out <> "" ->
  JSON_parse out = inl msg ->
  exists h',
    runVarlockLoad inputs h =
    (h', inr {| output := out; errorCount := error_occurrences out;
                envGraph := VUndefined |}) /\
    log h' = log h ++ [CoreSetFailed "Failed to parse varlock output."] /\
    failed h' = true /\
    env h' = env h /\ secrets h' = secrets h /\ outputs h' = outputs h.
Proof.
  intros Hs Hexec Hout Hne Hparse.
  assert (Ht : truthy_stdout (stdout error) = Some out) by by apply truthy_stdout_Some.
  rewrite (runVarlockLoad_machine_run _ _ Hs), Hexec, Ht, Hparse,
    count_error_matches_occurrences.
  eexists. split; [reflexivity|]. done.
Qed.

(** C2, amended. In machine mode, when the subprocess exits with non-zero
    and its stdout parses as a Result Graph, [runVarlockLoad] returns that
    graph, which is neither [null] nor [undefined], and an [errorCount]
    equal to the number of case-insensitive occurrences of the token error
    in the stdout (a number that may be 0); it makes no call on the host. *)
Theorem runVarlockLoad_partial_graph (inputs : ActionInputs) (h : Host W)
  (w : W) (error : JsError) (out : string) (graph : JsValue) :
  showSummary inputs = false ->
  execSync "varlock load --format json-full" (load_options inputs) (world h)
  = (w, inl error) ->
  stdout error = Some out -> out <> "" ->
  JSON_parse out = inr graph ->
  is_SerializedEnvGraph graph = true ->
  exists h',
    runVarlockLoad inputs h =
    (h', inr {| output := out; errorCount := error_occurrences out;
                envGraph := graph |}) /\
    graph <> VNull /\ graph <> VUndefined /\ truthy graph = true /\
    log h' = log h /\ failed h' = failed h.
Proof.
  intros Hs Hexec Hout Hne Hparse Hg.
  assert (Ht : truthy_stdout (stdout error) = Some out) by by apply truthy_stdout_Some.
  rewrite (runVarlockLoad_machine_run _ _ Hs), Hexec, Ht, Hparse,
    count_error_matches_occurrences.
  eexists. split; [reflexivity|].
  destruct graph; try discriminate. done.
Qed.

(** *** Detection of environment files *)

Lemma prefix_append (s t : string) : String.prefix s (s +:+ t) = true.
Proof.
  induction s as [|c s IH]; [by destruct t|].
  change (String c s +:+ t) with (String c (s +:+ t)). cbn [String.prefix].
  destruct (ascii_dec c c); [exact IH|done].
Qed.

Lemma is_env_file_names (file : string) :
  file = ".env" \/ (exists suffix, file = ".env." +:+ suffix) -> is_env_file file = true.
Proof.
  unfold is_env_file. intros [->|[suffix ->]]; [done|].
  rewrite prefix_append. apply orb_true_r.
Qed.

Lemma checkForEnvFiles_run (workingDir : string) (h : Host W) :
  checkForEnvFiles workingDir h =
  match readdirSync workingDir (world h) with
  | inr files =>
      let envFiles := List.filter is_env_file files in
      match envFiles with
      | [] => (h, inr false)
      | _ :: _ =>
          (perform (CoreInfo ("Found environment files: "
                              +:+ String.concat ", " envFiles)) h, inr true)
      end
  | inl error =>
      (perform (CoreWarning ("Error reading directory " +:+ workingDir +:+ ": "
                             +:+ error_toString error)) h, inr false)
  end.
Proof.
  unfold checkForEnvFiles. rewrite try_catch_run, bind_run. unfold readdir.
  destruct (readdirSync workingDir (world h)) as [error|files]; [done|].
  cbn zeta. by destruct (List.filter is_env_file files).
Qed.

(** C4. [checkForEnvFiles] returns true for a directory that holds an entry
    named [.env], or an entry whose name is [.env.] followed by any suffix
    ([.env.local], [.env.production] and [.env.schema] are such names),
    returns false for an empty directory, and, when the directory cannot be
    read, returns false with a warning instead of throwing. *)
Theorem checkForEnvFiles_detects (workingDir : string) (h : Host W) :
  (forall files file,
      readdirSync workingDir (world h) = inr files ->
      In file files ->
      file = ".env" \/ (exists suffix, file = ".env." +:+ suffix) ->
      exists h', checkForEnvFiles workingDir h = (h', inr true)) /\
  (Forall (fun file => is_env_file file = true)
     [".env"; ".env.local"; ".env.production"; ".env.schema"]) /\
  (readdirSync workingDir (world h) = inr [] ->
   checkForEnvFiles workingDir h = (h, inr false)) /\
  (forall error,
      readdirSync workingDir (world h) = inl error ->
      exists h' msg,
        checkForEnvFiles workingDir h = (h', inr false) /\
        log h' = log h ++ [CoreWarning msg] /\ failed h' = failed h).
Proof.
  rewrite checkForEnvFiles_run. split; [|split; [|split]].
  - intros files file -> Hin Hname. cbn zeta.
    apply is_env_file_names in Hname.
    destruct (List.filter is_env_file files) as [|f fs] eqn:Hf; [|by eexists].
    assert (Hin' : In file (List.filter is_env_file files)) by by apply filter_In.
    rewrite Hf in Hin'. destruct Hin'.
  - repeat constructor.
  - by intros ->.
  - intros error ->. by do 2 eexists.
Qed.

(** *** Runs that export nothing *)

Lemma quiet_refl (h : Host W) : quiet h h.
Proof. exists []. by rewrite app_nil_r. Qed.

Lemma quiet_trans (h1 h2 h3 : Host W) : quiet h1 h2 -> quiet h2 h3 -> quiet h1 h3.
Proof.
  intros (c1 & Hl1 & Hc1 & He1 & Hs1 & Hi1 & Hf1) (c2 & Hl2 & Hc2 & He2 & Hs2 & Hi2 & Hf2).
  exists (c1 ++ c2). rewrite Hl2, Hl1, <- app_assoc, forallb_app, Hc1, Hc2.
  repeat split; try congruence. auto.
Qed.

Lemma quiet_perform (h h' : Host W) (c : CoreCall) :
  exports_nothing c = true -> quiet h h' -> quiet h (perform c h').
Proof.
  intros Hc Hq. apply (quiet_trans _ _ _ Hq). exists [c].
  destruct c; try discriminate; done.
Qed.

Lemma quiet_set_world (h h' : Host W) (w : W) : quiet h h' -> quiet h (set_world w h').
Proof.
  intros Hq. apply (quiet_trans _ _ _ Hq). exists []. by rewrite app_nil_r.
Qed.

Ltac quiet_steps :=
  repeat first [ apply quiet_perform; [reflexivity|]
               | apply quiet_set_world ];
  first [ apply quiet_refl | eassumption | idtac ].

Lemma checkVarlockInstalled_quiet (h : Host W) :
  exists h' b, checkVarlockInstalled h = (h', inr b) /\ quiet h h'.
Proof.
  unfold checkVarlockInstalled. rewrite try_catch_run, bind_exec.
  destruct (execSync _ _ (world h)) as [w [error|out]];
    do 2 eexists; (split; [reflexivity|quiet_steps]).
Qed.

Lemma installVarlock_quiet (h : Host W) :
  exists h', installVarlock h = (h', inr tt) /\ quiet h h'.
Proof.
  unfold installVarlock. act_simpl. rewrite try_catch_run, bind_exec.
  destruct (execSync _ _ (world _)) as [w [error|out]].
  - rewrite try_catch_run, bind_exec.
    destruct (execSync _ _ (world _)) as [w' [error'|out']];
      eexists; (split; [reflexivity|quiet_steps]).
  - eexists; (split; [reflexivity|quiet_steps]).
Qed.

Lemma checkForEnvFiles_quiet (workingDir : string) (h : Host W) :
  exists h' b, checkForEnvFiles workingDir h = (h', inr b) /\ quiet h h'.
Proof.
  rewrite checkForEnvFiles_run.
  destruct (readdirSync workingDir (world h)) as [error|files]; cbn zeta.
  - do 2 eexists; (split; [reflexivity|quiet_steps]).
  - destruct (List.filter is_env_file files);
      do 2 eexists; (split; [reflexivity|quiet_steps]).
Qed.

Lemma runVarlockLoad_summary_quiet (inputs : ActionInputs) (h : Host W) :
  showSummary inputs = true ->
  exists h' r,
    runVarlockLoad inputs h = (h', r) /\ quiet h h' /\
    (forall result, r = inr result -> envGraph result = VUndefined).
Proof.
  intros Hs. rewrite (runVarlockLoad_summary_run _ _ Hs). cbn zeta.
  destruct (execSync _ _ (world h)) as [w [error|out]].
  - destruct (truthy_stdout (stdout error));
      do 2 eexists; (split; [reflexivity|]); (split; [quiet_steps|]);
      intros result [= <-]; done.
  - do 2 eexists; (split; [reflexivity|]); (split; [quiet_steps|]).
    intros result [= <-]; done.
Qed.

Lemma run_load_summary_quiet (inputs : ActionInputs) (h : Host W) :
  showSummary inputs = true ->
  exists h' r,
    run_load inputs h = (h', r) /\ quiet h h' /\
    (outputFormat inputs = "json" -> (exists x, r = inr x) -> failed h' = true).
Proof.
  intros Hs. unfold run_load. act_simpl. rewrite bind_run.
  destruct (checkForEnvFiles_quiet (workingDirectory inputs)
              (perform (CoreInfo "🔍 Checking for environment files...")
                 (perform (CoreInfo "✅ Varlock is available") h)))
    as (h1 & hasEnvFiles & -> & Hq1).
  assert (Hq1' : quiet h h1).
  { eapply quiet_trans; [|exact Hq1]. quiet_steps. }
  clear Hq1. destruct hasEnvFiles; cbn [negb]; act_simpl.
  - rewrite bind_run.
    destruct (runVarlockLoad_summary_quiet inputs
                (perform (CoreInfo "🚀 Loading environment variables with varlock...")
                   (perform (CoreInfo "✅ Environment files found") h1)) Hs)
      as (h2 & r & -> & Hq2 & Hgraph).
    assert (Hq2' : quiet h h2).
    { eapply quiet_trans; [|exact Hq2]. quiet_steps. }
    clear Hq2. destruct r as [error|result].
    { do 2 eexists. split; [reflexivity|]. split; [done|]. by intros _ [x [=]]. }
    rewrite (Hgraph result eq_refl), Hs. cbn [truthy]. act_simpl.
    destruct (String.eqb_spec (outputFormat inputs) "json") as [Hjson|Hjson];
      act_simpl;
      (destruct (0 <? errorCount result)%nat; [destruct (failOnError inputs)|]);
      act_simpl;
      do 2 eexists; (split; [reflexivity|]); (split; [quiet_steps|]);
      try (intros _ _; reflexivity); intros Hj; by destruct Hjson.
  - do 2 eexists. split; [reflexivity|]. split; [quiet_steps|]. done.
Qed.

Lemma getInputs_run (h : Host W) :
  getInputs h =
  (h, inr {| workingDirectory :=
               if String.eqb (default "" (inputs h !! "working-directory")) ""
               then "." else default "" (inputs h !! "working-directory");
             showSummary := String.eqb (default "" (inputs h !! "show-summary")) "true";
             failOnError := String.eqb (default "" (inputs h !! "fail-on-error")) "true";
             outputFormat :=
               if String.eqb (default "" (inputs h !! "output-format")) ""
               then "env" else default "" (inputs h !! "output-format") |}).
Proof. reflexivity. Qed.

Lemma run_load_summary_failed (ins : ActionInputs) (h0 h : Host W) :
  showSummary ins = true -> quiet h0 h ->
  exists h',
    try_catch (run_load ins)
      (fun error => core_setFailed ("Action failed: " +:+ message error)) h
    = (h', inr tt) /\
    quiet h0 h' /\ (outputFormat ins = "json" -> failed h' = true).
Proof.
  intros Hs Hq. rewrite try_catch_run.
  destruct (run_load_summary_quiet ins h Hs) as (h1 & r & -> & Hq1 & Hfail).
  assert (Hq1' : quiet h0 h1) by by eapply quiet_trans.
  destruct r as [error|[]].
  - eexists. split; [reflexivity|]. split; [quiet_steps|done].
  - eexists. split; [reflexivity|]. split; [done|]. intros Hj. apply Hfail; eauto.
Qed.

(** C9. When the input [show-summary] is [true]: [runVarlockLoad] in
    summary mode never returns a Result Graph, and the run, whatever the
    subprocesses and the file system do, returns after making no
    [exportVariable] and no [setSecret] call, with the exported environment
    and the masked secrets as they were; when moreover the input
    [output-format] is [json], the run ends marked as failed. *)
Theorem run_summary_exports_nothing (h : Host W) :
  inputs h !! "show-summary" = Some "true" ->
  (forall ins hs hs' result,
      showSummary ins = true ->
      runVarlockLoad ins hs = (hs', inr result) -> envGraph result = VUndefined) /\
  exists h' calls,
    run h = (h', inr tt) /\
    log h' = log h ++ calls /\
    (forall c, In c calls -> exports_nothing c = true) /\
    env h' = env h /\ secrets h' = secrets h /\
    (inputs h !! "output-format" = Some "json" -> failed h' = true).
Proof.
  intros Hsummary. split.
  { intros ins hs hs' result Hs Hrun.
    destruct (runVarlockLoad_summary_quiet ins hs Hs) as (h1 & r & Heq & _ & Hgraph).
    apply Hgraph. congruence. }
  assert (Hrun : exists h',
             run h = (h', inr tt) /\ quiet h h' /\
             (inputs h !! "output-format" = Some "json" -> failed h' = true)).
  { unfold run.
    set (handler := fun error : JsError =>
                      core_setFailed ("Action failed: " +:+ message error)).
    assert (Hsplit : forall (ins : ActionInputs) (h1 : Host W),
               showSummary ins = true -> quiet h h1 ->
               (inputs h !! "output-format" = Some "json" -> outputFormat ins = "json") ->
               exists h',
                 try_catch (run_load ins) handler h1 = (h', inr tt) /\ quiet h h' /\
                 (inputs h !! "output-format" = Some "json" -> failed h' = true)).
    { intros ins h1 Hs Hq Hfmt.
      destruct (run_load_summary_failed ins h h1 Hs Hq) as (h' & Heq & Hq' & Hf).
      exists h'. auto. }
    rewrite try_catch_run, bind_run, getInputs_run. rewrite Hsummary. cbn [default].
    set (ins := {| workingDirectory := _; showSummary := _ |}).
    assert (Hs : showSummary ins = true) by reflexivity.
    assert (Hfmt : inputs h !! "output-format" = Some "json" -> outputFormat ins = "json").
    { intros Hj. subst ins. cbn [outputFormat]. by rewrite Hj. }
    clearbody ins. act_simpl. rewrite bind_run.
    destruct (checkVarlockInstalled_quiet
                (perform (CoreInfo "🔍 Checking for varlock installation...") h))
      as (h1 & installed & -> & Hq1).
    assert (Hq1' : quiet h h1).
    { eapply quiet_trans; [|exact Hq1]. quiet_steps. }
    clear Hq1. destruct installed; cbn [negb].
    - rewrite <- try_catch_run. by apply Hsplit.
    - act_simpl. rewrite bind_run.
      destruct (installVarlock_quiet
                  (perform (CoreInfo "📦 Varlock not found, installing...") h1))
        as (h2 & -> & Hq2).
      assert (Hq2' : quiet h h2).
      { eapply quiet_trans; [|exact Hq2]. quiet_steps. }
      clear Hq2. rewrite bind_run.
      destruct (checkVarlockInstalled_quiet h2) as (h3 & installed & -> & Hq3).
      assert (Hq3' : quiet h h3) by by eapply quiet_trans.
      destruct installed; cbn [negb].
      + rewrite <- try_catch_run. by apply Hsplit.
      + act_simpl. eexists. split; [reflexivity|]. split; [quiet_steps|done]. }
  destruct Hrun as (h' & Heq & (calls & Hlog & Hcalls & Henv & Hsec & _ & _) & Hfail).
  exists h', calls. repeat split; try done.
  intros c Hin. rewrite forallb_forall in Hcalls. by apply Hcalls.
Qed.

(** *** The JSON blob *)

(** For every Result Graph, [outputJsonBlob] returns after two calls: it
    publishes the formatted text of one object under [json-env], and logs a
    line. Under every key but [__proto__], that object holds the raw value
    of the entry of that key when the entry has a value, and nothing
    otherwise; no [isSensitive] flag is consulted. *)
Lemma outputJsonBlob_publishes (envGraph : JsValue) (h : Host W) :
  is_SerializedEnvGraph envGraph = true ->
  exists h',
    outputJsonBlob envGraph h = (h', inr tt) /\
    log h' = log h ++
      [CoreSetOutput "json-env" (JSON_stringify (json_blob (config_entries envGraph)));
       CoreInfo "✅ Output JSON blob with environment variables"] /\
    forall key,
      key <> "__proto__" ->
      own_property (json_blob (config_entries envGraph)) key =
      match own_property (config_entries envGraph) key with
      | Some itemInfo =>
          if present (item_value itemInfo) then Some (item_value itemInfo) else None
      | None => None
      end.
Proof.
  intros Hg. destruct (is_SerializedEnvGraph_config _ Hg) as (_ & Hnd & _).
  exists (perform_all (blob_calls envGraph) h).
  split; [by apply outputJsonBlob_calls|]. split; [apply log_perform_all|].
  intros key Hkey. rewrite (json_blob_lookup _ _ Hnd).
  destruct (String.eqb_spec key "__proto__"); [done|].
  destruct (own_property (config_entries envGraph) key) as [itemInfo|]; [|done].
  by rewrite andb_true_r.
Qed.

(** Only [undefined] and [null] count as no value: an entry whose value is
    the empty string, [false] or [0] is exported by
    [setEnvironmentVariables], as the text of the value, and is kept as it
    is in the object of [outputJsonBlob] when its key is not [__proto__]. *)
Lemma falsy_values_are_exported (envGraph : JsValue) (key : string)
  (itemInfo : JsValue) :
  is_SerializedEnvGraph envGraph = true ->
  In (key, itemInfo) (config_entries envGraph) ->
  In (item_value itemInfo) [VString ""; VBool false; VNumber 0] ->
  In (js_String (item_value itemInfo)) [""; "false"; "0"] /\
  In (CoreExportVariable key (js_String (item_value itemInfo))) (export_calls envGraph) /\
  (key <> "__proto__" ->
   own_property (json_blob (config_entries envGraph)) key = Some (item_value itemInfo)).
Proof.
  intros Hg Hin Hfalsy. destruct (is_SerializedEnvGraph_config _ Hg) as (_ & Hnd & _).
  assert (Hp : present (item_value itemInfo) = true).
  { destruct Hfalsy as [<-|[<-|[<-|[]]]]; done. }
  split; [|split].
  - destruct Hfalsy as [<-|[<-|[<-|[]]]]; cbn; auto.
  - unfold export_calls. apply in_or_app. left. apply in_flat_map.
    exists (key, itemInfo). split; [done|]. unfold entry_calls. cbn [fst snd].
    rewrite Hp. destruct (item_isSensitive itemInfo); cbn; auto.
  - intros Hkey. rewrite (json_blob_lookup _ _ Hnd), (own_property_In _ _ _ Hnd Hin), Hp.
    by destruct (String.eqb_spec key "__proto__").
Qed.

(** *** The whole run *)

(** X1. [run] never throws: whatever the subprocesses, the file system and
    [JSON.parse] do, and whatever the inputs are, it returns. *)
Theorem run_never_throws (h : Host W) : exists h', run h = (h', inr tt).
Proof.
  unfold run. rewrite try_catch_run.
  match goal with
  | |- context [match ?body with pair _ _ => _ end] =>
      destruct body as [h1 [error|[]]]
  end; eexists; reflexivity.
Qed.

(** *** Inputs, probe and installation *)

(** X2. [getInputs] never throws and leaves the host as it is. The two
    flags are true only for the input text [true] itself; the working
    directory and the output format are never empty: an input that is not
    set, or empty, gives [.] and [env]. *)
Theorem getInputs_defaults (h : Host W) :
  exists ins,
    getInputs h = (h, inr ins) /\
    (showSummary ins = true <-> inputs h !! "show-summary" = Some "true") /\
    (failOnError ins = true <-> inputs h !! "fail-on-error" = Some "true") /\
    workingDirectory ins <> "" /\ outputFormat ins <> "" /\
    (forall dir, inputs h !! "working-directory" = Some dir -> dir <> "" ->
                 workingDirectory ins = dir) /\
    (forall format, inputs h !! "output-format" = Some format -> format <> "" ->
                    outputFormat ins = format) /\
    (inputs h !! "working-directory" = None \/ inputs h !! "working-directory" = Some "" ->
     workingDirectory ins = ".") /\
    (inputs h !! "output-format" = None \/ inputs h !! "output-format" = Some "" ->
     outputFormat ins = "env").
Proof.
  exists (read_inputs h). split; [reflexivity|]. unfold read_inputs. cbn.
  split; [|split].
  - destruct (inputs h !! "show-summary") as [s|]; cbn.
    + rewrite String.eqb_eq. split; congruence.
    + split; discriminate.
  - destruct (inputs h !! "fail-on-error") as [s|]; cbn.
    + rewrite String.eqb_eq. split; congruence.
    + split; discriminate.
  - destruct (inputs h !! "working-directory") as [dir|];
      destruct (inputs h !! "output-format") as [format|]; cbn;
      try destruct (String.eqb_spec dir ""); try destruct (String.eqb_spec format "");
      repeat split; try done; try congruence;
      try (intros ? [= <-] ?; done); try (intros [|[= ->]]; done).
Qed.

Lemma checkVarlockInstalled_run (h : Host W) :
  checkVarlockInstalled h =
  match execSync "varlock --version" version_options (world h) with
  | (w, inr _) => (set_world w h, inr true)
  | (w, inl _) => (set_world w h, inr false)
  end.
Proof.
  unfold checkVarlockInstalled. rewrite try_catch_run, bind_exec.
  fold version_options.
  by destruct (execSync "varlock --version" version_options (world h)) as [w [e|out]].
Qed.

Lemma installVarlock_run (h : Host W) :
  installVarlock h =
  let h0 := perform (CoreInfo "Installing varlock...") h in
  match execSync npm_command install_options (world h) with
  | (w, inr _) => (set_world w h0, inr tt)
  | (w1, inl _) =>
      match execSync curl_command install_options w1 with
      | (w2, inr _) => (set_world w2 h0, inr tt)
      | (w2, inl error) =>
          (perform (CoreSetFailed ("Failed to install varlock: "
                                   +:+ error_toString error)) (set_world w2 h0),
           inr tt)
      end
  end.
Proof.
  unfold installVarlock. act_simpl. rewrite try_catch_run, bind_exec.
  fold npm_command install_options. rewrite world_perform. cbn zeta.
  destruct (execSync npm_command install_options (world h)) as [w1 [e1|o1]]; [|done].
  rewrite try_catch_run, bind_exec. fold curl_command. cbn [world set_world].
  by destruct (execSync curl_command install_options w1) as [w2 [e2|o2]].
Qed.

(** X3. [checkVarlockInstalled] never throws: it returns true when the
    version query exits with zero and false when it fails in any way, and
    it makes no call on the host. *)
Theorem checkVarlockInstalled_probe (h : Host W) :
  exists w r b,
    execSync "varlock --version" version_options (world h) = (w, r) /\
    checkVarlockInstalled h = (set_world w h, inr b) /\
    (b = true <-> exists out, r = inr out) /\
    log (set_world w h) = log h /\ failed (set_world w h) = failed h.
Proof.
  unfold checkVarlockInstalled. rewrite try_catch_run, bind_exec.
  fold version_options.
  destruct (execSync "varlock --version" version_options (world h)) as [w [error|out]].
  - exists w, (inl error), false. repeat split; try done. intros [out [=]].
  - exists w, (inr out), true. repeat split; try done. by exists out.
Qed.

(** X4. [installVarlock] never throws. It runs the npm installer first and
    the install script only when npm has failed; the run is marked as
    failed, with the error of the script, only when both have failed. *)
Theorem installVarlock_fallback (h : Host W) :
  (forall w out,
      execSync npm_command install_options (world h) = (w, inr out) ->
      exists h',
        installVarlock h = (h', inr tt) /\ world h' = w /\ failed h' = failed h /\
        log h' = log h ++ [CoreInfo "Installing varlock..."]) /\
  (forall w1 e1 w2 out,
      execSync npm_command install_options (world h) = (w1, inl e1) ->
      execSync curl_command install_options w1 = (w2, inr out) ->
      exists h',
        installVarlock h = (h', inr tt) /\ world h' = w2 /\ failed h' = failed h /\
        log h' = log h ++ [CoreInfo "Installing varlock..."]) /\
  (forall w1 e1 w2 e2,
      execSync npm_command install_options (world h) = (w1, inl e1) ->
      execSync curl_command install_options w1 = (w2, inl e2) ->
      exists h',
        installVarlock h = (h', inr tt) /\ world h' = w2 /\ failed h' = true /\
        log h' = log h ++
          [CoreInfo "Installing varlock...";
           CoreSetFailed ("Failed to install varlock: " +:+ error_toString e2)]).
Proof.
  unfold installVarlock. act_simpl. rewrite try_catch_run, bind_exec.
  fold npm_command install_options. rewrite world_perform.
  split; [|split].
  - intros w out ->. eexists. split; [reflexivity|]. done.
  - intros w1 e1 w2 out -> Hcurl. rewrite try_catch_run, bind_exec.
    fold curl_command install_options. cbn [world set_world]. rewrite Hcurl.
    eexists. split; [reflexivity|]. done.
  - intros w1 e1 w2 e2 -> Hcurl. rewrite try_catch_run, bind_exec.
    fold curl_command install_options. cbn [world set_world]. rewrite Hcurl.
    eexists. split; [reflexivity|]. cbn. by rewrite <- app_assoc.
Qed.

(** *** Detection, exactly *)

Lemma prefix_split (p s : string) :
  String.prefix p s = true -> exists t, s = p +:+ t.
Proof.
  revert s. induction p as [|c p IH]; intros s Hp.
  - by exists s.
  - destruct s as [|c' s]; [discriminate|]. cbn [String.prefix] in Hp.
    destruct (ascii_dec c c') as [<-|]; [|discriminate].
    destruct (IH s Hp) as [t ->]. by exists t.
Qed.

Lemma is_env_file_iff (file : string) :
  is_env_file file = true <->
  file = ".env" \/ exists suffix, file = ".env." +:+ suffix.
Proof.
  split; [|apply is_env_file_names].
  unfold is_env_file. intros Hf. apply orb_true_iff in Hf as [Hf|Hf].
  - left. by apply String.eqb_eq.
  - right. by apply prefix_split.
Qed.

(** X5. When the directory can be read, [checkForEnvFiles] returns true
    exactly when one of its entries is named [.env] or [.env.] followed by a
    suffix, and false otherwise; it logs the names it found, joined by a
    comma, and nothing when it found none. *)
Theorem checkForEnvFiles_exact (workingDir : string) (h : Host W)
  (files : list string) :
  readdirSync workingDir (world h) = inr files ->
  exists h' found,
    checkForEnvFiles workingDir h = (h', inr found) /\
    (found = true <->
     exists file, In file files /\
                  (file = ".env" \/ exists suffix, file = ".env." +:+ suffix)) /\
    log h' = log h ++
      (if found
       then [CoreInfo ("Found environment files: "
                       +:+ String.concat ", " (List.filter is_env_file files))]
       else []) /\
    failed h' = failed h /\ world h' = world h.
Proof.
  intros Hread. rewrite checkForEnvFiles_run, Hread. cbn zeta.
  destruct (List.filter is_env_file files) as [|f fs] eqn:Hf.
  - exists h, false. split; [done|]. split; [|by rewrite app_nil_r].
    split; [done|]. intros (file & Hin & Hname). apply is_env_file_iff in Hname.
    assert (Hin' : In file (List.filter is_env_file files)) by by apply filter_In.
    rewrite Hf in Hin'. destruct Hin'.
  - eexists _, true. split; [reflexivity|]. split; [|done].
    split; [|done]. intros _. exists f.
    assert (Hin : In f (List.filter is_env_file files)) by (rewrite Hf; by left).
    apply filter_In in Hin as [Hin Hname]. split; [done|]. by apply is_env_file_iff.
Qed.

(** *** The host after an export *)

Lemma exported_fold (calls : list CoreCall) (m : gmap string string) :
  foldl (fun m c => match c with
                    | CoreExportVariable key value => <[key:=value]> m
                    | _ => m
                    end) m calls = exported calls ∪ m.
Proof.
  induction calls as [|c calls IH] using rev_ind.
  - unfold exported. cbn [foldl]. by rewrite (left_id_L ∅ (∪)).
  - unfold exported in *. rewrite !foldl_app. cbn [foldl]. rewrite IH.
    destruct c; try done. by rewrite insert_union_l.
Qed.

Lemma exported_app (a b : list CoreCall) :
  exported (a ++ b) = exported b ∪ exported a.
Proof. unfold exported at 1. rewrite foldl_app. apply exported_fold. Qed.

Lemma masked_fold (calls : list CoreCall) (s : gset string) :
  foldl (fun s c => match c with
                    | CoreSetSecret secret => {[secret]} ∪ s
                    | _ => s
                    end) s calls = masked calls ∪ s.
Proof.
  induction calls as [|c calls IH] using rev_ind.
  - unfold masked. cbn [foldl]. by rewrite (left_id_L ∅ (∪)).
  - unfold masked in *. rewrite !foldl_app. cbn [foldl]. rewrite IH.
    destruct c; try done. by rewrite (assoc_L (∪)).
Qed.

Lemma masked_app (a b : list CoreCall) : masked (a ++ b) = masked b ∪ masked a.
Proof. unfold masked at 1. rewrite foldl_app. apply masked_fold. Qed.





Lemma published_fold (calls : list CoreCall) (m : gmap string string) :
  foldl (fun m c => match c with
                    | CoreSetOutput key value => <[key:=value]> m
                    | _ => m
                    end) m calls = published calls ∪ m.
Proof.
  induction calls as [|c calls IH] using rev_ind.
  - unfold published. cbn [foldl]. by rewrite (left_id_L ∅ (∪)).
  - unfold published in *. rewrite !foldl_app. cbn [foldl]. rewrite IH.
    destruct c; try done. by rewrite insert_union_l.
Qed.

Lemma published_app (a b : list CoreCall) :
  published (a ++ b) = published b ∪ published a.
Proof. unfold published at 1. rewrite foldl_app. apply published_fold. Qed.


Lemma fails_app (a b : list CoreCall) : fails (a ++ b) = fails a || fails b.
Proof. apply existsb_app. Qed.


Lemma world_perform_all (calls : list CoreCall) (h : Host W) :
  world (perform_all calls h) = world h.
Proof.
  revert h. induction calls as [|c calls IH]; intros h; [done|].
  change (perform_all (c :: calls) h) with (perform_all calls (perform c h)).
  by rewrite IH, world_perform.
Qed.


Lemma filter_entry_calls (entry : string * JsValue) :
  List.length (List.filter is_export_call (entry_calls entry))
  = (if has_value entry then 1 else 0)%nat /\
  List.length (List.filter is_secret_call (entry_calls entry))
  = (if is_secret entry then 1 else 0)%nat.
Proof.
  unfold entry_calls, has_value, is_secret. destruct (present _); [|done].
  by destruct (item_isSensitive _).
Qed.

Lemma count_flat_map_entry_calls (entries : list (string * JsValue)) :
  List.length (List.filter is_export_call (List.flat_map entry_calls entries))
  = List.length (List.filter has_value entries) /\
  List.length (List.filter is_secret_call (List.flat_map entry_calls entries))
  = List.length (List.filter is_secret entries).
Proof.
  induction entries as [|entry rest [IH1 IH2]]; [done|].
  cbn [flat_map List.filter]. rewrite !List.filter_app, !length_app, IH1, IH2.
  destruct (filter_entry_calls entry) as [-> ->].
  by destruct (has_value entry), (is_secret entry).
Qed.

Lemma has_value_split (entries : list (string * JsValue)) :
  List.length (List.filter has_value entries)
  = (List.length (List.filter is_regular entries)
     + List.length (List.filter is_secret entries))%nat.
Proof.
  induction entries as [|entry rest IH]; [done|].
  cbn [List.filter]. unfold has_value, is_regular, is_secret in *.
  destruct (present _), (item_isSensitive _); cbn [andb negb List.length]; lia.
Qed.

(** X7. The line [setEnvironmentVariables] logs last tells the truth: for
    a Result Graph, the number of secrets it reports is the number of
    [setSecret] calls made, and the two numbers it reports add up to the
    number of [exportVariable] calls made, which is the number of entries
    that have a value. *)
Theorem setEnvironmentVariables_reports_counts (envGraph : JsValue) (h : Host W) :
  is_SerializedEnvGraph envGraph = true ->
  exists h' calls regularVars secretVars,
    setEnvironmentVariables envGraph h = (h', inr tt) /\
    log h' = log h ++ calls /\
    last calls =
    Some (CoreInfo ("✅ Exported " +:+ nat_toString regularVars
                    +:+ " regular environment variables and "
                    +:+ nat_toString secretVars +:+ " secrets")) /\
    List.length (List.filter is_secret_call calls) = secretVars /\
    List.length (List.filter is_export_call calls) = (regularVars + secretVars)%nat /\
    (regularVars + secretVars)%nat
    = List.length (List.filter has_value (config_entries envGraph)).
Proof.
  intros Hg.
  exists (perform_all (export_calls envGraph) h), (export_calls envGraph),
    (List.length (List.filter is_regular (config_entries envGraph))),
    (List.length (List.filter is_secret (config_entries envGraph))).
  split; [by apply setEnvironmentVariables_calls|].
  split; [apply log_perform_all|].
  unfold export_calls. rewrite last_snoc, !List.filter_app, !length_app.
  destruct (count_flat_map_entry_calls (config_entries envGraph)) as [-> ->].
  rewrite has_value_split. cbn [List.filter is_secret_call is_export_call List.length].
  repeat split; try done; lia.
Qed.

(** *** The JSON blob, further *)

Lemma json_blob_key_values (entries : list (string * JsValue)) :
  json_blob entries =
  foldl (fun jsonOutput kv =>
           if present (snd kv) then assign_property jsonOutput (fst kv) (snd kv)
           else jsonOutput) [] (List.map key_value entries).
Proof.
  unfold json_blob. generalize (@nil (string * JsValue)).
  induction entries as [|entry rest IH]; intros acc; [done|].
  cbn [foldl List.map]. apply IH.
Qed.

(** X8. [outputJsonBlob] masks nothing and exports nothing: on a Result
    Graph it leaves the exported environment, the masked secrets and the
    failure mark as they were, and sets the one output [json-env]. The text
    it publishes depends on the keys and the values alone: two graphs whose
    entries differ only in their [isSensitive] flags publish the same text,
    so the value of a sensitive entry is published as it is. *)
Theorem outputJsonBlob_masks_nothing (envGraph : JsValue) (h : Host W) :
  is_SerializedEnvGraph envGraph = true ->
  (exists h' text,
      outputJsonBlob envGraph h = (h', inr tt) /\
      outputs h' = <["json-env" := text]> (outputs h) /\
      env h' = env h /\ secrets h' = secrets h /\ failed h' = failed h /\
      forall (other : JsValue) (h1 : Host W),
        is_SerializedEnvGraph other = true ->
        List.map key_value (config_entries other)
        = List.map key_value (config_entries envGraph) ->
        exists h1', outputJsonBlob other h1 = (h1', inr tt) /\
                    outputs h1' !! "json-env" = Some text).
Proof.
  intros Hg.
  exists (perform_all (blob_calls envGraph) h),
    (JSON_stringify (json_blob (config_entries envGraph))).
  split; [by apply outputJsonBlob_calls|].
  repeat split; try done.
  intros other h1 Hother Hsame.
  exists (perform_all (blob_calls other) h1).
  split; [by apply outputJsonBlob_calls|].
  unfold blob_calls, perform_all. cbn [foldl perform outputs].
  rewrite lookup_insert_eq. do 2 f_equal.
  by rewrite !json_blob_key_values, Hsame.
Qed.




(** *** Values that are no Result Graph *)

(** X10. A value whose [config] is missing or [null] makes both export
    routines throw a [TypeError], from [Object.entries], before any call on
    the host. *)
Theorem export_routines_without_config (envGraph : JsValue) (h : Host W) :
  get envGraph "config" = inr VUndefined \/ get envGraph "config" = inr VNull ->
  setEnvironmentVariables envGraph h
  = (h, inl (TypeError "Cannot convert undefined or null to object")) /\
  outputJsonBlob envGraph h
  = (h, inl (TypeError "Cannot convert undefined or null to object")).
Proof.
  intros Hc. unfold setEnvironmentVariables, outputJsonBlob. act_simpl.
  by destruct Hc as [-> | ->].
Qed.

(** X11. [setEnvironmentVariables] does not undo what it did: when an entry
    of the config is [null], the entries before it are exported and masked
    as usual, then a [TypeError] is thrown; the entries after it are not
    exported, and the line with the counts is not logged. *)
Theorem setEnvironmentVariables_stops_at_null (envGraph : JsValue) (h : Host W)
  (before after : list (string * JsValue)) (key : string) :
  get envGraph "config" = inr (VObject (before ++ (key, VNull) :: after)) ->
  Forall (fun entry => is_ItemInfo (snd entry) = true) before ->
  exists h',
    setEnvironmentVariables envGraph h
    = (h', inl (TypeError "Cannot read properties of null (reading 'value')")) /\
    log h' = log h ++ List.flat_map entry_calls before.
Proof.
  intros Hc Hbefore. exists (perform_all (List.flat_map entry_calls before) h).
  split; [|apply log_perform_all].
  unfold setEnvironmentVariables. act_simpl. rewrite Hc. cbn [Object_entries].
  act_simpl. rewrite bind_run.
  assert (Hloop : forall (regularVars secretVars : nat) (h0 : Host W),
             setEnvironmentVariables_loop (before ++ (key, VNull) :: after)
               regularVars secretVars h0
             = (perform_all (List.flat_map entry_calls before) h0,
                inl (TypeError "Cannot read properties of null (reading 'value')"))).
  { clear Hc. induction Hbefore as [|[k itemInfo] rest Hitem _ IH];
      intros regularVars secretVars h0.
    - cbn [app setEnvironmentVariables_loop]. by act_simpl.
    - destruct (is_ItemInfo_get _ Hitem) as [Hv Hs]. cbn [snd] in Hv, Hs.
      cbn [app setEnvironmentVariables_loop flat_map]. act_simpl. rewrite Hv.
      unfold entry_calls at 1. cbn [fst snd].
      destruct (present (item_value itemInfo)); [|apply IH].
      act_simpl. rewrite Hs. cbn [truthy].
      destruct (item_isSensitive itemInfo); act_simpl; rewrite IH; reflexivity. }
  by rewrite Hloop.
Qed.

(** *** The load, further *)

(** X12. In machine mode, when the subprocess exits with zero,
    [runVarlockLoad] returns what [JSON.parse] gives for the stdout, of
    whatever shape, with [errorCount] 0, whatever the text says; when the
    stdout does not parse, it throws the [SyntaxError]. Either way it makes
    no call on the host. *)
Theorem runVarlockLoad_machine_success (inputs : ActionInputs) (h : Host W)
  (w : W) (out : string) :
  showSummary inputs = false ->
  execSync "varlock load --format json-full" (load_options inputs) (world h)
  = (w, inr out) ->
  (forall value,
      JSON_parse out = inr value ->
      runVarlockLoad inputs h
      = (set_world w h, inr {| output := out; errorCount := 0; envGraph := value |})) /\
  (forall msg,
      JSON_parse out = inl msg ->
      runVarlockLoad inputs h = (set_world w h, inl (SyntaxError msg))) /\
  log (set_world w h) = log h /\ failed (set_world w h) = failed h.
Proof.
  intros Hs Hexec. rewrite (runVarlockLoad_machine_run _ _ Hs), Hexec.
  split; [|split; [|done]].
  - by intros value ->.
  - by intros msg ->.
Qed.

(** *** The count, further *)

Lemma global_matches_bound (text : list ascii) (skip : nat) :
  (skip <= List.length text)%nat ->
  (5 * global_matches error_pattern text skip + skip <= List.length text)%nat.
Proof.
  revert skip. induction text as [|c rest IH]; intros skip Hskip.
  - cbn in *. lia.
  - cbn [global_matches List.length] in *. destruct skip as [|k].
    + destruct (matches_here error_pattern (c :: rest)) eqn:Hm.
      * change (List.length error_pattern - 1)%nat with 4%nat.
        assert (Hlen : (4 <= List.length rest)%nat).
        { destruct (le_lt_dec 4 (List.length rest)) as [|Hlt]; [done|].
          rewrite matches_here_error_short in Hm by (cbn [List.length]; lia).
          discriminate. }
        specialize (IH 4%nat Hlen). lia.
      * specialize (IH 0%nat ltac:(lia)). lia.
    + specialize (IH k ltac:(lia)). lia.
Qed.

Lemma canonicalize_idemp (c : ascii) : canonicalize (canonicalize c) = canonicalize c.
Proof.
  unfold canonicalize at 2 3.
  destruct ((97 <=? N_of_ascii c)%N && (N_of_ascii c <=? 122)%N) eqn:Hc; unfold canonicalize.
  - apply andb_true_iff in Hc as [H1 H2]. apply N.leb_le in H1, H2.
    rewrite N_ascii_embedding by lia.
    replace ((97 <=? N_of_ascii c - 32)%N) with false; [done|].
    symmetry. apply N.leb_gt. lia.
  - by rewrite Hc.
Qed.

Lemma matches_here_canonicalize (pattern text : list ascii) :
  matches_here pattern (List.map canonicalize text) = matches_here pattern text.
Proof.
  revert text. induction pattern as [|p ps IH]; intros [|c cs]; try done.
  cbn [List.map matches_here]. by rewrite canonicalize_idemp, IH.
Qed.

Lemma global_matches_canonicalize (pattern text : list ascii) (skip : nat) :
  global_matches pattern (List.map canonicalize text) skip
  = global_matches pattern text skip.
Proof.
  revert skip. induction text as [|c rest IH]; intros skip; [done|].
  cbn [List.map global_matches]. destruct skip; [|apply IH].
  change (canonicalize c :: List.map canonicalize rest)
    with (List.map canonicalize (c :: rest)).
  by rewrite matches_here_canonicalize, !IH.
Qed.

Lemma occurrences_zero (text : list ascii) :
  occurrences error_pattern text = 0%nat <->
  forall i, matches_here error_pattern (drop i text) = false.
Proof.
  induction text as [|c rest IH].
  - split; [|done]. intros _ i. by destruct i.
  - cbn [occurrences]. split.
    + intros Hz i. destruct (matches_here error_pattern (c :: rest)) eqn:Hm; [lia|].
      destruct i as [|i]; [done|]. cbn [drop]. apply IH. lia.
    + intros Hno. pose proof (Hno 0%nat) as H0. cbn [drop] in H0. rewrite H0.
      cbn. apply IH. intros i. apply (Hno (S i)).
Qed.

Lemma length_list_ascii_of_string (s : string) :
  List.length (list_ascii_of_string s) = String.length s.
Proof. induction s as [|c s IH]; [done|]. cbn [list_ascii_of_string List.length String.length]. by rewrite IH. Qed.

(** X13. The count that [runVarlockLoad] takes from an output is at most a
    fifth of the length of the output; it does not change when letters of
    the output change case; and it is 0 exactly when the token stands
    nowhere in the output, whatever the case of its letters. *)
Theorem count_error_matches_facts (output : string) :
  (5 * count_error_matches output <= String.length output)%nat /\
  count_error_matches
    (string_of_list_ascii (List.map canonicalize (list_ascii_of_string output)))
  = count_error_matches output /\
  (count_error_matches output = 0%nat <->
   forall i, matches_here error_pattern (drop i (list_ascii_of_string output)) = false).
Proof.
  split; [|split].
  - unfold count_error_matches.
    pose proof (global_matches_bound (list_ascii_of_string output) 0 ltac:(lia)) as Hb.
    rewrite length_list_ascii_of_string in Hb. lia.
  - unfold count_error_matches.
    by rewrite list_ascii_of_string_of_list_ascii, global_matches_canonicalize.
  - rewrite count_error_matches_occurrences. apply occurrences_zero.
Qed.

(** *** The run, step by step *)

Lemma set_world_perform_all (calls : list CoreCall) (w : W) (h : Host W) :
  set_world w (perform_all calls h) = perform_all calls (set_world w h).
Proof.
  revert h. induction calls as [|c calls IH]; intros h; [done|].
  change (perform_all (c :: calls) ?x) with (perform_all calls (perform c x)).
  rewrite IH. by destruct c.
Qed.

Lemma run_installed (h : Host W) (w : W) (version : string) :
  execSync "varlock --version" version_options (world h) = (w, inr version) ->
  run h =
  try_catch (run_load (read_inputs h))
    (fun error => core_setFailed ("Action failed: " +:+ message error))
    (perform (CoreInfo "🔍 Checking for varlock installation...") (set_world w h)).
Proof.
  intros Hv. unfold run. rewrite !try_catch_run, bind_run, getInputs_run.
  fold (read_inputs h). act_simpl. rewrite bind_run.
  unfold checkVarlockInstalled. rewrite try_catch_run, bind_exec.
  fold version_options. rewrite world_perform, Hv. cbn [negb].
  reflexivity.
Qed.

Lemma run_load_found (ins : ActionInputs) (h : Host W) (files : list string) :
  readdirSync (workingDirectory ins) (world h) = inr files ->
  existsb is_env_file files = true ->
  run_load ins h = (runVarlockLoad ins ≫= relay ins) (perform_all (load_prelude files) h).
Proof.
  intros Hread Hfound.
  assert (Hfilter : exists f fs, List.filter is_env_file files = f :: fs).
  { apply existsb_exists in Hfound as (f & Hin & Hf).
    assert (Hin' : In f (List.filter is_env_file files)) by by apply filter_In.
    destruct (List.filter is_env_file files) as [|f' fs]; [done|]. eauto. }
  destruct Hfilter as (f & fs & Hfilter).
  unfold run_load. act_simpl. rewrite bind_run, checkForEnvFiles_run.
  rewrite !world_perform, Hread. cbn zeta. rewrite Hfilter, <- Hfilter. cbn [negb].
  act_simpl. reflexivity.
Qed.

Lemma perform_all_cons (c : CoreCall) (calls : list CoreCall) (h : Host W) :
  perform_all (c :: calls) h = perform_all calls (perform c h).
Proof. reflexivity. Qed.

Lemma policy_run (ins : ActionInputs) (count : nat) (h : Host W) :
  ((if (0 <? count)%nat then
      let message := "Found " +:+ nat_toString count +:+ " validation error(s)" in
      if failOnError ins then core_setFailed message else core_warning message
    else mret tt);;
   core_info "✅ Environment variables loaded successfully") h
  = (perform_all (policy_calls ins count
                  ++ [CoreInfo "✅ Environment variables loaded successfully"]) h,
     inr tt).
Proof.
  unfold policy_calls.
  destruct (0 <? count)%nat; [destruct (failOnError ins)|]; reflexivity.
Qed.

Lemma relay_graph (ins : ActionInputs) (result : LoadResult) (h : Host W) :
  showSummary ins = false ->
  is_SerializedEnvGraph (envGraph result) = true ->
  relay ins result h = (perform_all (relay_calls ins result) h, inr tt).
Proof.
  intros Hs Hg. unfold relay. rewrite Hs.
  assert (Ht : truthy (envGraph result) = true).
  { by destruct (envGraph result). }
  rewrite Ht. pose proof (policy_run ins (errorCount result)) as Hpolicy.
  act_simpl. unfold relay_calls.
  change (CoreSetOutput "error-count" (nat_toString (errorCount result)) :: ?l)
    with ([CoreSetOutput "error-count" (nat_toString (errorCount result))] ++ l).
  destruct (String.eqb (outputFormat ins) "env").
  - rewrite bind_run. act_simpl. rewrite (setEnvironmentVariables_calls _ _ Hg), Hpolicy.
    cbn [app]. by rewrite !perform_all_cons, !perform_all_app.
  - destruct (String.eqb (outputFormat ins) "json").
    + rewrite bind_run. act_simpl. rewrite (outputJsonBlob_calls _ _ Hg), Hpolicy.
      cbn [app]. by rewrite !perform_all_cons, !perform_all_app.
    + act_simpl. rewrite Hpolicy. reflexivity.
Qed.

Lemma bind_assoc {A B C : Type} (m : Act W A) (f : A -> Act W B) (g : B -> Act W C)
  (h : Host W) :
  ((m ≫= f) ≫= g) h = (m ≫= fun x => f x ≫= g) h.
Proof. rewrite !bind_run. by destruct (m h) as [h' [e|x]]. Qed.

Lemma core_run (c : CoreCall) (h : Host W) : core c h = (perform c h, inr tt).
Proof. reflexivity. Qed.

Lemma mret_run {A : Type} (x : A) (h : Host W) : (mret x : Act W A) h = (h, inr x).
Proof. reflexivity. Qed.

Lemma relay_summary (ins : ActionInputs) (result : LoadResult) (h : Host W) :
  showSummary ins = true ->
  envGraph result = VUndefined ->
  relay ins result h = (perform_all (summary_calls ins result) h, inr tt).
Proof.
  intros Hs Hg. unfold relay. rewrite Hs, Hg. cbn [truthy].
  pose proof (policy_run ins (errorCount result)) as Hpolicy.
  act_simpl. unfold summary_calls.
  destruct (String.eqb (outputFormat ins) "json");
    repeat first [rewrite bind_assoc | rewrite bind_core | rewrite bind_mret];
    rewrite Hpolicy; cbn [app]; by rewrite !perform_all_cons.
Qed.

Lemma set_world_twice (w1 w2 : W) (h : Host W) :
  set_world w2 (set_world w1 h) = set_world w2 h.
Proof. reflexivity. Qed.

(** The run, when the validator is installed and environment files are
    found, is the load followed by the relay of its result. *)
Lemma run_found (h : Host W) (w1 : W) (version : string) (files : list string) :
  execSync "varlock --version" version_options (world h) = (w1, inr version) ->
  readdirSync (workingDirectory (read_inputs h)) w1 = inr files ->
  existsb is_env_file files = true ->
  run h =
  try_catch (runVarlockLoad (read_inputs h) ≫= relay (read_inputs h))
    (fun error => core_setFailed ("Action failed: " +:+ message error))
    (perform_all (CoreInfo "🔍 Checking for varlock installation..."
                  :: load_prelude files) (set_world w1 h)).
Proof.
  intros Hv Hread Hfound. rewrite (run_installed _ _ _ Hv), !try_catch_run.
  rewrite (run_load_found _ _ files); [done| |done].
  by rewrite world_perform.
Qed.

Lemma exported_policy (ins : ActionInputs) (count : nat) :
  exported (policy_calls ins count) = ∅ /\ masked (policy_calls ins count) = ∅ /\
  published (policy_calls ins count) = ∅ /\
  fails (policy_calls ins count) = (0 <? count)%nat && failOnError ins.
Proof.
  unfold policy_calls. destruct (0 <? count)%nat; [|done]. by destruct (failOnError ins).
Qed.


Lemma exported_cons (c : CoreCall) (calls : list CoreCall) :
  exported (c :: calls)
  = exported calls ∪ match c with
                     | CoreExportVariable key value => {[key := value]}
                     | _ => ∅
                     end.
Proof.
  change (c :: calls) with ([c] ++ calls). rewrite exported_app. f_equal.
  all: destruct c; try done. all: unfold exported; cbn [foldl]; apply insert_empty.
Qed.

Lemma masked_cons (c : CoreCall) (calls : list CoreCall) :
  masked (c :: calls)
  = masked calls ∪ match c with
                   | CoreSetSecret secret => {[secret]}
                   | _ => ∅
                   end.
Proof.
  change (c :: calls) with ([c] ++ calls). rewrite masked_app. f_equal.
  all: destruct c; try done. all: unfold masked; cbn [foldl]; apply (right_id_L ∅ (∪)).
Qed.

Lemma published_cons (c : CoreCall) (calls : list CoreCall) :
  published (c :: calls)
  = published calls ∪ match c with
                      | CoreSetOutput key value => {[key := value]}
                      | _ => ∅
                      end.
Proof.
  change (c :: calls) with ([c] ++ calls). rewrite published_app. f_equal.
  all: destruct c; try done. all: unfold published; cbn [foldl]; apply insert_empty.
Qed.

Lemma fails_cons (c : CoreCall) (calls : list CoreCall) :
  fails (c :: calls)
  = match c with CoreSetFailed _ => true | _ => false end || fails calls.
Proof. reflexivity. Qed.

Lemma effects_nil :
  exported [] = ∅ /\ masked [] = ∅ /\ published [] = ∅ /\ fails [] = false.
Proof. done. Qed.

Ltac effects :=
  rewrite ?env_perform_all, ?secrets_perform_all, ?outputs_perform_all,
    ?failed_perform_all, ?world_perform_all;
  repeat first
    [ rewrite exported_app | rewrite masked_app | rewrite published_app
    | rewrite fails_app | rewrite exported_cons | rewrite masked_cons
    | rewrite published_cons | rewrite fails_cons ];
  destruct effects_nil as (-> & -> & -> & ->);
  rewrite ?(left_id_L ∅ (∪)), ?(right_id_L ∅ (∪)), ?orb_false_r, ?orb_false_l.


Lemma run_machine_graph (h : Host W) (w1 w2 : W) (version : string)
  (files : list string) (result : LoadResult) :
  showSummary (read_inputs h) = false ->
  execSync "varlock --version" version_options (world h) = (w1, inr version) ->
  readdirSync (workingDirectory (read_inputs h)) w1 = inr files ->
  existsb is_env_file files = true ->
  (forall h1 : Host W,
      world h1 = w1 ->
      runVarlockLoad (read_inputs h) h1 = (set_world w2 h1, inr result)) ->
  is_SerializedEnvGraph (envGraph result) = true ->
  run h =
  (perform_all (relay_calls (read_inputs h) result)
     (perform_all (CoreInfo "🔍 Checking for varlock installation..."
                   :: load_prelude files) (set_world w2 h)), inr tt).
Proof.
  intros Hs Hv Hread Hfound Hload Hg.
  rewrite (run_found _ _ _ _ Hv Hread Hfound), try_catch_run, bind_run.
  rewrite Hload by (by rewrite world_perform_all).
  rewrite (relay_graph _ _ _ Hs Hg), set_world_perform_all. reflexivity.
Qed.

Lemma runVarlockLoad_zero_exit (ins : ActionInputs) (w1 w2 : W) (out : string)
  (graph : JsValue) (h1 : Host W) :
  showSummary ins = false ->
  execSync "varlock load --format json-full" (load_options ins) w1 = (w2, inr out) ->
  JSON_parse out = inr graph ->
  world h1 = w1 ->
  runVarlockLoad ins h1
  = (set_world w2 h1, inr {| output := out; errorCount := 0; envGraph := graph |}).
Proof.
  intros Hs Hexec Hparse <-.
  by rewrite (runVarlockLoad_machine_run _ _ Hs), Hexec, Hparse.
Qed.







(** X17. An output format that is neither [env] nor [json] is no error:
    under the same conditions, [run] sets the output [error-count] and
    nothing else; it exports nothing, masks nothing, and leaves the failure
    mark as it was. *)
Theorem run_unknown_format (h : Host W) (w1 w2 : W) (version out : string)
  (files : list string) (graph : JsValue) :
  showSummary (read_inputs h) = false ->
  outputFormat (read_inputs h) <> "env" ->
  outputFormat (read_inputs h) <> "json" ->
  execSync "varlock --version" version_options (world h) = (w1, inr version) ->
  readdirSync (workingDirectory (read_inputs h)) w1 = inr files ->
  existsb is_env_file files = true ->
  execSync "varlock load --format json-full" (load_options (read_inputs h)) w1
  = (w2, inr out) ->
  JSON_parse out = inr graph ->
  is_SerializedEnvGraph graph = true ->
  exists h',
    run h = (h', inr tt) /\
    outputs h' = <["error-count" := "0"]> (outputs h) /\
    env h' = env h /\ secrets h' = secrets h /\ failed h' = failed h.
Proof.
  intros Hs Hne Hnj Hv Hread Hfound Hexec Hparse Hg.
  eexists. split.
  { apply (run_machine_graph h w1 w2 version files
             {| output := out; errorCount := 0; envGraph := graph |}); try done.
    intros h1 Hw. by apply (runVarlockLoad_zero_exit _ w1 w2). }
  unfold relay_calls, load_prelude, policy_calls.
  apply String.eqb_neq in Hne, Hnj. rewrite Hne, Hnj.
  cbn [errorCount envGraph Nat.ltb Nat.leb app]. effects.
  cbn [env secrets outputs failed set_world]. repeat split; try done.
  by rewrite <- ?(assoc_L (∪)), <- !insert_union_singleton_l.
Qed.

(** X18. Without environment files there is no load: when the validator is
    installed and the working directory cannot be read, or holds no
    environment file, [run] returns marked as failed, its last call being
    [setFailed('No environment files found')]; it runs no subprocess after
    the version query, sets no output, and exports and masks nothing. *)
Theorem run_without_env_files (h : Host W) (w1 : W) (version : string) :
  execSync "varlock --version" version_options (world h) = (w1, inr version) ->
  (exists error, readdirSync (workingDirectory (read_inputs h)) w1 = inl error) \/
  (exists files, readdirSync (workingDirectory (read_inputs h)) w1 = inr files /\
                 existsb is_env_file files = false) ->
  exists h',
    run h = (h', inr tt) /\
    world h' = w1 /\ failed h' = true /\
    last (log h') = Some (CoreSetFailed "No environment files found") /\
    outputs h' = outputs h /\ env h' = env h /\ secrets h' = secrets h.
Proof.
  intros Hv Hread. rewrite (run_installed _ _ _ Hv), try_catch_run.
  unfold run_load. act_simpl. rewrite bind_run, checkForEnvFiles_run, !world_perform.
  cbn [world set_world].
  destruct Hread as [[error ->]|(files & -> & Hnone)].
  - cbn [negb]. act_simpl. eexists. split; [reflexivity|].
    cbn [world failed log outputs env secrets perform set_world].
    rewrite last_snoc. done.
  - cbn zeta.
    assert (Hfilter : List.filter is_env_file files = []).
    { destruct (List.filter is_env_file files) as [|f fs] eqn:Hf; [done|].
      assert (Hin : In f (List.filter is_env_file files)) by (rewrite Hf; by left).
      apply filter_In in Hin as [Hin Hname].
      assert (Hex : existsb is_env_file files = true)
        by (apply existsb_exists; eauto).
      congruence. }
    rewrite Hfilter. cbn [negb]. act_simpl. eexists. split; [reflexivity|].
    cbn [world failed log outputs env secrets perform set_world].
    rewrite last_snoc. done.
Qed.

(** X19. When the version query fails, and fails again after the
    installation, whatever the installers did, [run] returns marked as
    failed, its last call being [setFailed('Failed to install varlock')];
    it never comes to the check for environment files, sets no output, and
    exports and masks nothing. *)
Theorem run_install_fails (h : Host W) :
  (forall w, exists w' error,
      execSync "varlock --version" version_options w = (w', inl error)) ->
  exists h' calls,
    run h = (h', inr tt) /\
    log h' = log h ++ calls /\
    last calls = Some (CoreSetFailed "Failed to install varlock") /\
    ~ In (CoreInfo "✅ Varlock is available") calls /\
    failed h' = true /\
    outputs h' = outputs h /\ env h' = env h /\ secrets h' = secrets h.
Proof.
  intros Hfail. unfold run. rewrite try_catch_run, bind_run, getInputs_run.
  act_simpl. rewrite bind_run, checkVarlockInstalled_run, world_perform.
  destruct (Hfail (world h)) as (w1 & e1 & ->). cbn [negb]. act_simpl.
  rewrite bind_run, installVarlock_run, !world_perform. cbn [world set_world]. cbn zeta.
  assert (Hend : forall (h2 : Host W),
             outputs h2 = outputs h -> env h2 = env h -> secrets h2 = secrets h ->
             forall calls,
               log h2 = log h ++ calls ->
               ~ In (CoreInfo "✅ Varlock is available") calls ->
               exists h' calls',
                 (let (h'0, s) :=
                    (checkVarlockInstalled
                     ≫= fun varlockInstalled : bool =>
                          if negb varlockInstalled
                          then core (CoreSetFailed "Failed to install varlock")
                          else run_load (read_inputs h)) h2 in
                  match s with
                  | inl e => core (CoreSetFailed ("Action failed: " +:+ message e)) h'0
                  | inr x => (h'0, inr x)
                  end) = (h', inr tt) /\
                 log h' = log h ++ calls' /\
                 last calls' = Some (CoreSetFailed "Failed to install varlock") /\
                 ~ In (CoreInfo "✅ Varlock is available") calls' /\
                 failed h' = true /\
                 outputs h' = outputs h /\ env h' = env h /\ secrets h' = secrets h).
  { intros h2 Ho He Hs calls Hlog Hnot.
    rewrite bind_run, checkVarlockInstalled_run.
    destruct (Hfail (world h2)) as (w4 & e4 & ->). cbn [negb].
    exists (perform (CoreSetFailed "Failed to install varlock") (set_world w4 h2)),
      (calls ++ [CoreSetFailed "Failed to install varlock"]).
    split; [reflexivity|]. cbn [log perform set_world failed outputs env secrets].
    rewrite Hlog, <- app_assoc, last_snoc. repeat split; try done.
    rewrite in_app_iff. intros [Hin|[Hin|[]]]; [done|discriminate]. }
  fold (read_inputs h).
  destruct (execSync npm_command install_options w1) as [w2 [e2|o2]].
  - destruct (execSync curl_command install_options w2) as [w3 [e3|o3]].
    + eapply Hend; try reflexivity.
      * cbn [log perform set_world]. rewrite <- !app_assoc. reflexivity.
      * cbn. intuition discriminate.
    + eapply Hend; try reflexivity.
      * cbn [log perform set_world]. rewrite <- !app_assoc. reflexivity.
      * cbn. intuition discriminate.
  - eapply Hend; try reflexivity.
    * cbn [log perform set_world]. rewrite <- !app_assoc. reflexivity.
    * cbn. intuition discriminate.
Qed.

Lemma summary_host (ins : ActionInputs) (result : LoadResult) (calls : list CoreCall)
  (h : Host W) :
  exported calls = ∅ -> masked calls = ∅ -> published calls = ∅ -> fails calls = false ->
  let h' := perform_all (summary_calls ins result) (perform_all calls h) in
  env h' = env h /\ secrets h' = secrets h /\
  outputs h' = <["summary" := output result]>
                 (<["error-count" := nat_toString (errorCount result)]> (outputs h)) /\
  failed h' = String.eqb (outputFormat ins) "json"
              || (0 <? errorCount result)%nat && failOnError ins || failed h.
Proof.
  intros Hc1 Hc2 Hc3 Hc4. cbn zeta. unfold summary_calls.
  destruct (exported_policy ins (errorCount result)) as (Hp1 & Hp2 & Hp3 & Hp4).
  destruct (String.eqb (outputFormat ins) "json").
  all: effects; rewrite Hp1, Hp2, Hp3, Hp4, Hc1, Hc2, Hc3, Hc4.
  all: rewrite ?(left_id_L ∅ (∪)), ?(right_id_L ∅ (∪)), ?orb_false_r, ?orb_false_l.
  all: repeat split; try done.
  all: by rewrite <- !(assoc_L (∪)), <- !insert_union_singleton_l.
Qed.

Lemma prelude_effects (files : list string) (more : list string) :
  let calls := (CoreInfo "🔍 Checking for varlock installation..." :: load_prelude files)
               ++ List.map CoreInfo more in
  exported calls = ∅ /\ masked calls = ∅ /\ published calls = ∅ /\ fails calls = false.
Proof.
  cbn zeta. rewrite exported_app, masked_app, published_app, fails_app.
  assert (Hmore : exported (List.map CoreInfo more) = ∅ /\
                  masked (List.map CoreInfo more) = ∅ /\
                  published (List.map CoreInfo more) = ∅ /\
                  fails (List.map CoreInfo more) = false).
  { induction more as [|m more IH]; [done|]. cbn [List.map].
    rewrite exported_cons, masked_cons, published_cons, fails_cons.
    destruct IH as (-> & -> & -> & ->). by rewrite !(left_id_L ∅ (∪)). }
  destruct Hmore as (-> & -> & -> & ->). by rewrite !(left_id_L ∅ (∪)).
Qed.

Lemma prelude_host (files : list string) (h : Host W) :
  let h' := perform_all (CoreInfo "🔍 Checking for varlock installation..."
                         :: load_prelude files) h in
  outputs h' = outputs h /\ env h' = env h /\ secrets h' = secrets h /\
  failed h' = failed h.
Proof.
  cbn zeta. destruct (prelude_effects files []) as (H1 & H2 & H3 & H4).
  cbn [List.map] in *. rewrite app_nil_r in *.
  rewrite outputs_perform_all, env_perform_all, secrets_perform_all, failed_perform_all.
  rewrite H1, H2, H3, H4. by rewrite !(left_id_L ∅ (∪)).
Qed.

(** X20. A hard fault of the load ends the run without any output: when the
    validator is installed, environment files are found, and the load
    subprocess of the chosen mode throws an error with no stdout (or an
    empty one), [run] catches it and returns marked as failed, its last
    call being [setFailed] with [Action failed: ] and the message of that
    error; not even [error-count] is set, and nothing is exported or
    masked. *)
Theorem run_hard_fault (h : Host W) (w1 w2 : W) (version : string)
  (files : list string) (error : JsError) :
  execSync "varlock --version" version_options (world h) = (w1, inr version) ->
  readdirSync (workingDirectory (read_inputs h)) w1 = inr files ->
  existsb is_env_file files = true ->
  execSync (if showSummary (read_inputs h)
            then "varlock load" else "varlock load --format json-full")
    (load_options (read_inputs h)) w1 = (w2, inl error) ->
  stdout error = None \/ stdout error = Some "" ->
  exists h',
    run h = (h', inr tt) /\
    last (log h') = Some (CoreSetFailed ("Action failed: " +:+ message error)) /\
    failed h' = true /\
    outputs h' = outputs h /\ env h' = env h /\ secrets h' = secrets h.
Proof.
  intros Hv Hread Hfound Hexec Hout.
  assert (Hnone : truthy_stdout (stdout error) = None) by by destruct Hout as [->| ->].
  rewrite (run_found _ _ _ _ Hv Hread Hfound), try_catch_run, bind_run.
  destruct (showSummary (read_inputs h)) eqn:Hs.
  - rewrite (runVarlockLoad_summary_run _ _ Hs). cbn zeta.
    rewrite world_perform_all. cbn [world set_world]. rewrite Hexec, Hnone.
    eexists. split; [reflexivity|].
    cbn [perform log failed outputs env secrets set_world].
    destruct (prelude_host files (set_world w1 h)) as (Ho & He & Hsec & _).
    rewrite last_snoc, Ho, He, Hsec. done.
  - rewrite (runVarlockLoad_machine_run _ _ Hs).
    rewrite world_perform_all. cbn [world set_world]. rewrite Hexec, Hnone.
    eexists. split; [reflexivity|].
    cbn [perform log failed outputs env secrets set_world].
    destruct (prelude_host files (set_world w1 h)) as (Ho & He & Hsec & _).
    rewrite last_snoc, Ho, He, Hsec. done.
Qed.

(** X21. In machine mode a load that exits with zero and prints something
    that is not JSON is fatal: the [SyntaxError] of [JSON.parse] has no
    stdout, so [runVarlockLoad] throws it again and [run] ends marked as
    failed, its last call being [setFailed] with [Action failed: ] and the
    message of the parser; no output is set and nothing is exported. *)
Theorem run_zero_exit_not_json (h : Host W) (w1 w2 : W) (version out msg : string)
  (files : list string) :
  showSummary (read_inputs h) = false ->
  execSync "varlock --version" version_options (world h) = (w1, inr version) ->
  readdirSync (workingDirectory (read_inputs h)) w1 = inr files ->
  existsb is_env_file files = true ->
  execSync "varlock load --format json-full" (load_options (read_inputs h)) w1
  = (w2, inr out) ->
  JSON_parse out = inl msg ->
  exists h',
    run h = (h', inr tt) /\
    last (log h') = Some (CoreSetFailed ("Action failed: " +:+ msg)) /\
    failed h' = true /\
    outputs h' = outputs h /\ env h' = env h /\ secrets h' = secrets h.
Proof.
  intros Hs Hv Hread Hfound Hexec Hparse.
  rewrite (run_found _ _ _ _ Hv Hread Hfound), try_catch_run, bind_run.
  rewrite (runVarlockLoad_machine_run _ _ Hs).
  rewrite world_perform_all. cbn [world set_world]. rewrite Hexec, Hparse.
  eexists. split; [reflexivity|].
  cbn [perform log failed outputs env secrets set_world SyntaxError message].
  destruct (prelude_host files (set_world w1 h)) as (Ho & He & Hsec & _).
  rewrite last_snoc, Ho, He, Hsec. done.
Qed.

(** X22. A whole run in summary mode: when the validator is installed,
    environment files are found, and the plain load either exits with zero
    and prints [out], or exits with non-zero after printing a non-empty
    [out], [run] returns with the output [summary] set to [out] and
    [error-count] to the count (0 in the first case, the occurrences of the
    token error in the second); it logs [out] and the warning that the
    output could not be parsed, and it is marked as failed exactly when it
    was before, or the output format is [json], or the count is positive
    and fail-on-error is set. *)
Theorem run_summary_outputs (h : Host W) (w1 w2 : W) (version out : string)
  (files : list string) (r : JsError + string) (count : nat) :
  showSummary (read_inputs h) = true ->
  execSync "varlock --version" version_options (world h) = (w1, inr version) ->
  readdirSync (workingDirectory (read_inputs h)) w1 = inr files ->
  existsb is_env_file files = true ->
  execSync "varlock load" (load_options (read_inputs h)) w1 = (w2, r) ->
  (r = inr out /\ count = 0) \/
  (exists error, r = inl error /\ stdout error = Some out /\ out <> "" /\
                 count = error_occurrences out) ->
  exists h',
    run h = (h', inr tt) /\
    outputs h' = <["summary" := out]> (<["error-count" := nat_toString count]> (outputs h)) /\
    In (CoreInfo out) (log h') /\
    In (CoreWarning "Could not parse varlock output as json-full") (log h') /\
    env h' = env h /\ secrets h' = secrets h /\
    failed h' = String.eqb (outputFormat (read_inputs h)) "json"
                || (0 <? count)%nat && failOnError (read_inputs h) || failed h.
Proof.
  intros Hs Hv Hread Hfound Hexec Hr.
  set (result := {| output := out; errorCount := count; envGraph := VUndefined |}).
  assert (Hload : forall h1 : Host W,
             world h1 = w1 ->
             runVarlockLoad (read_inputs h) h1
             = (set_world w2 (perform (CoreInfo "Running: varlock load") h1), inr result)).
  { intros h1 <-. rewrite (runVarlockLoad_summary_run _ _ Hs). cbn zeta. rewrite Hexec.
    destruct Hr as [[-> ->]|(error & -> & Hout & Hne & ->)]; [done|].
    assert (Ht : truthy_stdout (stdout error) = Some out) by by apply truthy_stdout_Some.
    by rewrite Ht, count_error_matches_occurrences. }
  rewrite (run_found _ _ _ _ Hv Hread Hfound), try_catch_run, bind_run.
  rewrite Hload by (by rewrite world_perform_all).
  rewrite (relay_summary _ result _ Hs eq_refl).
  eexists. split; [reflexivity|].
  change (perform (CoreInfo "Running: varlock load") ?x)
    with (perform_all [CoreInfo "Running: varlock load"] x).
  rewrite <- perform_all_app, set_world_perform_all, set_world_twice.
  destruct (prelude_effects files ["Running: varlock load"]) as (Hc1 & Hc2 & Hc3 & Hc4).
  cbn [List.map] in Hc1, Hc2, Hc3, Hc4.
  destruct (summary_host (read_inputs h) result _ (set_world w2 h) Hc1 Hc2 Hc3 Hc4)
    as (-> & -> & -> & ->).
  rewrite !log_perform_all. unfold summary_calls.
  cbn [output errorCount outputs env secrets failed set_world result].
  repeat split; try done.
  - apply in_or_app. right. right. right. right. by left.
  - apply in_or_app. right. right. right. right. right. by left.
Qed.

Lemma relay_no_graph (ins : ActionInputs) (result : LoadResult) (h : Host W) :
  showSummary ins = false ->
  truthy (envGraph result) = false ->
  relay ins result h = (perform_all (no_graph_calls ins result) h, inr tt).
Proof.
  intros Hs Hg. unfold relay. rewrite Hs, Hg.
  pose proof (policy_run ins (errorCount result)) as Hpolicy.
  act_simpl. unfold no_graph_calls.
  destruct (String.eqb (outputFormat ins) "json");
    repeat first [rewrite bind_assoc | rewrite bind_core | rewrite bind_mret];
    rewrite Hpolicy; cbn [app]; by rewrite !perform_all_cons.
Qed.

Lemma relay_without_config (ins : ActionInputs) (result : LoadResult) (h : Host W) :
  showSummary ins = false ->
  truthy (envGraph result) = true ->
  outputFormat ins = "env" \/ outputFormat ins = "json" ->
  get (envGraph result) "config" = inr VUndefined \/
  get (envGraph result) "config" = inr VNull ->
  exists step,
    relay ins result h
    = (perform (CoreInfo step)
         (perform (CoreSetOutput "error-count" (nat_toString (errorCount result))) h),
       inl (TypeError "Cannot convert undefined or null to object")).
Proof.
  intros Hs Hg Hf Hc. unfold relay. rewrite Hs, Hg. act_simpl.
  destruct Hf as [-> | ->].
  - exists "🔧 Setting environment variables...".
    change (String.eqb "env" "env") with true. cbn iota.
    rewrite bind_run, bind_core. unfold setEnvironmentVariables. act_simpl.
    by destruct Hc as [-> | ->].
  - exists "📄 Outputting JSON blob...".
    change (String.eqb "json" "env") with false.
    change (String.eqb "json" "json") with true. cbn iota.
    rewrite bind_run, bind_core. unfold outputJsonBlob. act_simpl.
    by destruct Hc as [-> | ->].
Qed.

Lemma no_graph_host (ins : ActionInputs) (result : LoadResult) (calls : list CoreCall)
  (h : Host W) :
  exported calls = ∅ -> masked calls = ∅ -> published calls = ∅ ->
  let h' := perform_all (no_graph_calls ins result) (perform_all calls h) in
  env h' = env h /\ secrets h' = secrets h /\
  outputs h' = <["error-count" := nat_toString (errorCount result)]> (outputs h) /\
  failed h' = String.eqb (outputFormat ins) "json"
              || (0 <? errorCount result)%nat && failOnError ins
              || (fails calls || failed h).
Proof.
  intros Hc1 Hc2 Hc3. cbn zeta. unfold no_graph_calls.
  destruct (exported_policy ins (errorCount result)) as (Hp1 & Hp2 & Hp3 & Hp4).
  destruct (String.eqb (outputFormat ins) "json").
  all: effects; rewrite Hp1, Hp2, Hp3, Hp4, Hc1, Hc2, Hc3.
  all: rewrite ?(left_id_L ∅ (∪)), ?(right_id_L ∅ (∪)), ?orb_false_r, ?orb_false_l.
  all: repeat split; try done.
  all: by rewrite <- ?(assoc_L (∪)), <- ?insert_union_singleton_l.
Qed.

(** X23. Valid JSON is not yet a Result Graph: when the load exits with
    zero and prints a truthy JSON value that has no [config] (a number, a
    string, an array, an object without that key), [run] sets
    [error-count] to 0, announces the export, and then fails: the export
    routine throws, and the last call of the run is [setFailed] with
    [Action failed: Cannot convert undefined or null to object]. Nothing is
    exported or masked. *)
Theorem run_graph_without_config (h : Host W) (w1 w2 : W) (version out : string)
  (files : list string) (value : JsValue) :
  showSummary (read_inputs h) = false ->
  outputFormat (read_inputs h) = "env" \/ outputFormat (read_inputs h) = "json" ->
  execSync "varlock --version" version_options (world h) = (w1, inr version) ->
  readdirSync (workingDirectory (read_inputs h)) w1 = inr files ->
  existsb is_env_file files = true ->
  execSync "varlock load --format json-full" (load_options (read_inputs h)) w1
  = (w2, inr out) ->
  JSON_parse out = inr value ->
  truthy value = true ->
  get value "config" = inr VUndefined \/ get value "config" = inr VNull ->
  exists h',
    run h = (h', inr tt) /\
    last (log h')
    = Some (CoreSetFailed "Action failed: Cannot convert undefined or null to object") /\
    failed h' = true /\
    outputs h' = <["error-count" := "0"]> (outputs h) /\
    env h' = env h /\ secrets h' = secrets h.
Proof.
  intros Hs Hf Hv Hread Hfound Hexec Hparse Ht Hc.
  set (result := {| output := out; errorCount := 0; envGraph := value |}).
  rewrite (run_found _ _ _ _ Hv Hread Hfound), try_catch_run, bind_run.
  rewrite (runVarlockLoad_zero_exit _ w1 w2 out value) by (done || by rewrite world_perform_all).
  fold result.
  destruct (relay_without_config (read_inputs h) result
              (set_world w2
                 (perform_all (CoreInfo "🔍 Checking for varlock installation..."
                               :: load_prelude files) (set_world w1 h)))
              Hs Ht Hf Hc) as (step & ->).
  eexists. split; [reflexivity|].
  rewrite set_world_perform_all, set_world_twice.
  destruct (prelude_host files (set_world w2 h)) as (Ho & He & Hsec & _).
  cbn [perform log failed outputs env secrets TypeError message errorCount result].
  rewrite last_snoc, Ho, He, Hsec. done.
Qed.

(** X24. A falsy JSON value is taken for no graph: when the load exits with
    zero and prints [null], [0], [false] or an empty string literal, [run]
    sets [error-count] to 0, warns that the output could not be parsed, and
    exports nothing; it is marked as failed exactly when it was before or
    the output format is [json]. *)
Theorem run_falsy_json (h : Host W) (w1 w2 : W) (version out : string)
  (files : list string) (value : JsValue) :
  showSummary (read_inputs h) = false ->
  execSync "varlock --version" version_options (world h) = (w1, inr version) ->
  readdirSync (workingDirectory (read_inputs h)) w1 = inr files ->
  existsb is_env_file files = true ->
  execSync "varlock load --format json-full" (load_options (read_inputs h)) w1
  = (w2, inr out) ->
  JSON_parse out = inr value ->
  truthy value = false ->
  exists h',
    run h = (h', inr tt) /\
    In (CoreWarning "Could not parse varlock output as json-full") (log h') /\
    outputs h' = <["error-count" := "0"]> (outputs h) /\
    env h' = env h /\ secrets h' = secrets h /\
    failed h' = String.eqb (outputFormat (read_inputs h)) "json" || failed h.
Proof.
  intros Hs Hv Hread Hfound Hexec Hparse Ht.
  set (result := {| output := out; errorCount := 0; envGraph := value |}).
  rewrite (run_found _ _ _ _ Hv Hread Hfound), try_catch_run, bind_run.
  rewrite (runVarlockLoad_zero_exit _ w1 w2 out value) by (done || by rewrite world_perform_all).
  fold result.
  rewrite (relay_no_graph _ result _ Hs Ht).
  eexists. split; [reflexivity|].
  rewrite set_world_perform_all, set_world_twice.
  destruct (prelude_effects files []) as (Hc1 & Hc2 & Hc3 & Hc4).
  cbn [List.map] in Hc1, Hc2, Hc3, Hc4. rewrite app_nil_r in Hc1, Hc2, Hc3, Hc4.
  destruct (no_graph_host (read_inputs h) result _ (set_world w2 h) Hc1 Hc2 Hc3)
    as (-> & -> & -> & ->).
  rewrite Hc4, !log_perform_all. unfold no_graph_calls.
  cbn [errorCount result outputs env secrets failed set_world orb andb Nat.ltb Nat.leb].
  rewrite ?orb_false_r.
  repeat split; try done.
  apply in_or_app. right. right. by left.
Qed.

(** X25. Output that cannot be parsed always fails the run: when the load
    exits with non-zero after printing a non-empty text that is not JSON,
    [run] returns marked as failed whatever [fail-on-error] and the output
    format are, since [runVarlockLoad] has called [setFailed]; it sets
    [error-count] to the occurrences of the token error in the text, warns
    that the output could not be parsed, and exports nothing. *)
Theorem run_unparseable_output (h : Host W) (w1 w2 : W) (version out msg : string)
  (files : list string) (error : JsError) :
  showSummary (read_inputs h) = false ->
  execSync "varlock --version" version_options (world h) = (w1, inr version) ->
  readdirSync (workingDirectory (read_inputs h)) w1 = inr files ->
  existsb is_env_file files = true ->
  execSync "varlock load --format json-full" (load_options (read_inputs h)) w1
  = (w2, inl error) ->
  stdout error = Some out -> out <> "" ->
  JSON_parse out = inl msg ->
  exists h',
    run h = (h', inr tt) /\
    In (CoreSetFailed "Failed to parse varlock output.") (log h') /\
    In (CoreWarning "Could not parse varlock output as json-full") (log h') /\
    failed h' = true /\
    outputs h' = <["error-count" := nat_toString (error_occurrences out)]> (outputs h) /\
    env h' = env h /\ secrets h' = secrets h.
Proof.
  intros Hs Hv Hread Hfound Hexec Hout Hne Hparse.
  set (result := {| output := out; errorCount := error_occurrences out;
                    envGraph := VUndefined |}).
  assert (Ht : truthy_stdout (stdout error) = Some out) by by apply truthy_stdout_Some.
  rewrite (run_found _ _ _ _ Hv Hread Hfound), try_catch_run, bind_run.
  rewrite (runVarlockLoad_machine_run _ _ Hs), world_perform_all.
  cbn [world set_world]. rewrite Hexec, Ht, Hparse, count_error_matches_occurrences.
  fold result. rewrite (relay_no_graph _ result _ Hs eq_refl).
  eexists. split; [reflexivity|].
  change (perform (CoreSetFailed "Failed to parse varlock output.") ?x)
    with (perform_all [CoreSetFailed "Failed to parse varlock output."] x).
  rewrite set_world_perform_all, set_world_twice.
  rewrite <- (perform_all_app (_ :: load_prelude files) [_]).
  destruct (prelude_effects files []) as (Hc1 & Hc2 & Hc3 & _).
  cbn [List.map] in Hc1, Hc2, Hc3. rewrite app_nil_r in Hc1, Hc2, Hc3.
  destruct (no_graph_host (read_inputs h) result
              ((CoreInfo "🔍 Checking for varlock installation..." :: load_prelude files)
               ++ [CoreSetFailed "Failed to parse varlock output."]) (set_world w2 h))
    as (-> & -> & -> & ->).
  { by rewrite exported_app, Hc1. }
  { by rewrite masked_app, Hc2. }
  { by rewrite published_app, Hc3. }
  rewrite fails_app, !log_perform_all. unfold no_graph_calls.
  cbn [errorCount result outputs env secrets failed set_world fails existsb].
  rewrite ?orb_true_r.
  repeat split; try done.
  - apply in_or_app. left. apply in_or_app. right. apply in_or_app. right. by left.
  - apply in_or_app. right. right. by left.
Qed.

End Properties.

(** ** The theorems at concrete inputs *)

(** The subprocess printed [oops] and exited with non-zero, in machine mode:
    the result has no graph, and the run is marked as failed. *)
Lemma runVarlockLoad_unparseable_output_witness :
  exists h',
    runVarlockLoad machine_inputs (scripted_host [inl (exit_error "oops")] []) =
    (h', inr {| output := "oops"; errorCount := 0; envGraph := VUndefined |}) /\
    failed h' = true.
Proof.
  destruct (runVarlockLoad_unparseable_output (platform := scripted) machine_inputs
              (scripted_host [inl (exit_error "oops")] [])
              {| responses := []; directory := inr [".env"] |}
              (exit_error "oops") "oops" "Unexpected token in JSON"
              ltac:(reflexivity) ltac:(reflexivity) ltac:(reflexivity) ltac:(discriminate) ltac:(reflexivity))
    as (h' & Hrun & _ & Hfailed & _).
  exists h'. split; [exact Hrun|exact Hfailed].
Defined.

(** C1 fails there: the call returned, but what it surfaced is the failure
    mark of [core.setFailed], and no warning. *)
Lemma runVarlockLoad_unparseable_not_only_warning :
  showSummary machine_inputs = false /\
  JSON_parse "oops" = inl "Unexpected token in JSON" /\
  failed (scripted_host [inl (exit_error "oops")] []) = false /\
  failed (fst (runVarlockLoad machine_inputs
                 (scripted_host [inl (exit_error "oops")] []))) = true /\
  log (fst (runVarlockLoad machine_inputs
              (scripted_host [inl (exit_error "oops")] []))) =
  [CoreSetFailed "Failed to parse varlock output."] /\
  ~ surfaces_only_a_warning (scripted_host [inl (exit_error "oops")] [])
      (runVarlockLoad machine_inputs (scripted_host [inl (exit_error "oops")] [])).
Proof.
  split; [reflexivity|]. split; [reflexivity|]. split; [reflexivity|].
  split; [reflexivity|]. split; [reflexivity|].
  intros (_ & Hfailed & _). vm_compute in Hfailed. discriminate.
Qed.

(** The subprocess printed a Result Graph with an empty config and exited
    with non-zero: the graph is returned. *)
Lemma runVarlockLoad_partial_graph_witness :
  exists h' result,
    runVarlockLoad machine_inputs
      (scripted_host [inl (exit_error empty_graph_text)] []) = (h', inr result) /\
    envGraph result <> VNull /\ envGraph result <> VUndefined.
Proof.
  destruct (runVarlockLoad_partial_graph (platform := scripted) machine_inputs
              (scripted_host [inl (exit_error empty_graph_text)] [])
              {| responses := []; directory := inr [".env"] |}
              (exit_error empty_graph_text) empty_graph_text
              (VObject [("sources", VArray []); ("settings", VObject []);
                        ("config", VObject [])])
              ltac:(reflexivity) ltac:(reflexivity) ltac:(reflexivity) ltac:(discriminate) ltac:(reflexivity) ltac:(reflexivity))
    as (h' & Hrun & Hnull & Hundef & _).
  exists h', {| output := empty_graph_text;
                errorCount := error_occurrences empty_graph_text;
                envGraph := VObject [("sources", VArray []); ("settings", VObject []);
                                     ("config", VObject [])] |}.
  split; [exact Hrun|]. split; [exact Hnull|exact Hundef].
Defined.

(** C2 fails there: the stdout is a valid Result Graph in which the token
    error does not occur, so the [errorCount] is 0, not at least 1. *)
Lemma runVarlockLoad_partial_graph_zero_errors :
  exists h' result,
    showSummary machine_inputs = false /\
    JSON_parse empty_graph_text = inr (envGraph result) /\
    is_SerializedEnvGraph (envGraph result) = true /\
    runVarlockLoad machine_inputs
      (scripted_host [inl (exit_error empty_graph_text)] []) = (h', inr result) /\
    errorCount result = 0%nat /\ ~ (1 <= errorCount result)%nat.
Proof.
  exists (fst (runVarlockLoad machine_inputs
                 (scripted_host [inl (exit_error empty_graph_text)] []))),
    {| output := empty_graph_text; errorCount := 0;
       envGraph := VObject [("sources", VArray []); ("settings", VObject []);
                            ("config", VObject [])] |}.
  split; [reflexivity|]. split; [reflexivity|]. split; [reflexivity|].
  split; [reflexivity|]. cbn [errorCount]. split; [reflexivity|]. lia.
Qed.

(** [A] is registered and then exported; the log of the host starts with
    these two calls. *)
Lemma setEnvironmentVariables_masks_before_export_witness :
  is_SerializedEnvGraph example_graph = true /\
  exists (h' : Host Script) calls,
    setEnvironmentVariables example_graph (scripted_host [] []) = (h', inr tt) /\
    log h' = calls /\
    exists before after,
      calls = before ++ CoreSetSecret "s3cret" :: CoreExportVariable "A" "s3cret" :: after.
Proof.
  split; [reflexivity|].
  destruct (setEnvironmentVariables_masks_before_export example_graph
              (scripted_host [] []) ltac:(reflexivity))
    as (h' & calls & Hrun & Hlog & Hentries & _).
  exists h', calls. split; [exact Hrun|]. split; [exact Hlog|].
  destruct (Hentries "A"
              (VObject [("value", VString "s3cret"); ("isSensitive", VBool true)])
              (or_introl eq_refl)) as (Hsecret & _).
  destruct (Hsecret ltac:(reflexivity) ltac:(reflexivity)) as (before & after & Hcalls & _).
  by exists before, after.
Defined.

(** A directory that holds [.env.local] among other files. *)
Lemma checkForEnvFiles_detects_witness :
  exists h',
    checkForEnvFiles "."
      (initial_host {| responses := []; directory := inr ["README.md"; ".env.local"] |} [])
    = (h', inr true).
Proof.
  destruct (checkForEnvFiles_detects (platform := scripted) "."
              (initial_host
                 {| responses := []; directory := inr ["README.md"; ".env.local"] |} []))
    as (Hfound & _).
  apply (Hfound ["README.md"; ".env.local"] ".env.local" ltac:(reflexivity)
           (or_intror (or_introl eq_refl))).
  right. by exists "local".
Defined.

(** The shell could not be started: no stdout, and the error is thrown. *)
Lemma runVarlockLoad_rethrows_witness :
  exists h',
    runVarlockLoad summary_inputs (scripted_host [inl spawn_error] []) =
    (h', inl spawn_error).
Proof.
  apply (runVarlockLoad_rethrows (platform := scripted) summary_inputs (scripted_host [inl spawn_error] [])
           {| responses := []; directory := inr [".env"] |} spawn_error ltac:(reflexivity)).
  left. reflexivity.
Defined.

(** The validator printed two lines that name an error and exited with
    non-zero, in summary mode. *)
Lemma runVarlockLoad_summary_witness :
  exists h',
    runVarlockLoad summary_inputs
      (scripted_host [inl (exit_error "ERROR: PORT is missing; error: bad URL")] []) =
    (h', inr {| output := "ERROR: PORT is missing; error: bad URL";
                errorCount := 2; envGraph := VUndefined |}).
Proof.
  destruct (runVarlockLoad_summary (platform := scripted) summary_inputs
              (scripted_host [inl (exit_error "ERROR: PORT is missing; error: bad URL")] [])
              ltac:(reflexivity)) as (_ & Hfailure & _).
  apply (Hfailure {| responses := []; directory := inr [".env"] |}
           (exit_error "ERROR: PORT is missing; error: bad URL")
           "ERROR: PORT is missing; error: bad URL" ltac:(reflexivity) ltac:(reflexivity)).
  discriminate.
Defined.

(** The example graph, exported twice in each mode. *)
Lemma export_routines_idempotent_witness :
  is_SerializedEnvGraph example_graph = true /\
  exists (h1 h2 : Host Script),
    setEnvironmentVariables example_graph (scripted_host [] []) = (h1, inr tt) /\
    setEnvironmentVariables example_graph h1 = (h2, inr tt) /\
    env h2 = env h1 /\ secrets h2 = secrets h1.
Proof.
  split; [reflexivity|].
  destruct (export_routines_idempotent example_graph (scripted_host [] []) ltac:(reflexivity))
    as ((h1 & h2 & calls & Hrun1 & Hrun2 & _ & _ & Henv & Hsecrets & _) & _).
  exists h1, h2. auto.
Defined.

(** A run with [show-summary: true] and [output-format: json], in which the
    validator is installed and prints a summary. *)
Lemma run_summary_exports_nothing_witness :
  exists h',
    run (scripted_host [inr "1.0.0"; inr "All good"]
           [("show-summary", "true"); ("output-format", "json")]) = (h', inr tt) /\
    env h' = ∅ /\ secrets h' = ∅ /\ failed h' = true.
Proof.
  destruct (run_summary_exports_nothing (platform := scripted)
              (scripted_host [inr "1.0.0"; inr "All good"]
                 [("show-summary", "true"); ("output-format", "json")]) ltac:(reflexivity))
    as (_ & h' & calls & Hrun & _ & _ & Henv & Hsecrets & Hfailed).
  exists h'. split; [exact Hrun|]. split; [exact Henv|]. split; [exact Hsecrets|].
  apply Hfailed. reflexivity.
Defined.

(** ** The key [__proto__] *)

(** C5. The code at a config with the keys [__proto__] and [X], both with a
    value: the text [outputJsonBlob] publishes holds [X] alone. *)
Lemma outputJsonBlob_drops_proto_key :
  JSON_parse proto_and_X_text = inr proto_and_X_graph /\
  is_SerializedEnvGraph proto_and_X_graph = true /\
  (exists itemInfo,
      own_property (config_entries proto_and_X_graph) "__proto__" = Some itemInfo /\
      present (item_value itemInfo) = true) /\
  json_blob (config_entries proto_and_X_graph) = [("X", VNumber 1)] /\
  exists h' : Host Script,
    outputJsonBlob proto_and_X_graph (scripted_host [] []) = (h', inr tt) /\
    outputs h' !! "json-env" =
    Some ("{" +:+ newline +:+ "  " +:+ quoted "X" +:+ ": 1" +:+ newline +:+ "}").
Proof.
  split; [reflexivity|]. split; [reflexivity|]. split; [by eexists|].
  split; [reflexivity|].
  exists (fst (outputJsonBlob proto_and_X_graph (scripted_host [] []))).
  split; reflexivity.
Qed.

(** C10. The code at a config whose one entry has the key [__proto__] and
    the value [0]: [setEnvironmentVariables] exports it as the text [0],
    and the object of [outputJsonBlob] does not keep it. *)
Lemma falsy_value_under_proto_key_not_kept :
  JSON_parse proto_graph_text = inr proto_graph /\
  is_SerializedEnvGraph proto_graph = true /\
  config_entries proto_graph =
  [("__proto__", VObject [("value", VNumber 0); ("isSensitive", VBool false)])] /\
  (exists h' : Host Script,
      setEnvironmentVariables proto_graph (scripted_host [] []) = (h', inr tt) /\
      env h' !! "__proto__" = Some "0") /\
  own_property (json_blob (config_entries proto_graph)) "__proto__" = None /\
  exists h' : Host Script,
    outputJsonBlob proto_graph (scripted_host [] []) = (h', inr tt) /\
    outputs h' !! "json-env" = Some "{}".
Proof.
  split; [reflexivity|]. split; [reflexivity|]. split; [reflexivity|].
  split.
  { exists (fst (setEnvironmentVariables proto_graph (scripted_host [] []))).
    split; reflexivity. }
  split; [reflexivity|].
  exists (fst (outputJsonBlob proto_graph (scripted_host [] []))).
  split; reflexivity.
Qed.

(** ** The parts of the run at concrete inputs *)

(** A directory whose names only look like environment files. *)
Lemma checkForEnvFiles_exact_witness :
  exists h',
    checkForEnvFiles "."
      (initial_host {| responses := []; directory := inr [".envrc"; "env.local"] |} [])
    = (h', inr false) /\ log h' = [].
Proof.
  destruct (checkForEnvFiles_exact (platform := scripted) "."
              (initial_host {| responses := []; directory := inr [".envrc"; "env.local"] |} [])
              [".envrc"; "env.local"] ltac:(reflexivity))
    as (h' & found & Hrun & Hfound & Hlog & _).
  destruct found.
  - exfalso. destruct (proj1 Hfound eq_refl) as (file & Hin & Hname).
    destruct Hin as [<-|[<-|[]]]; destruct Hname as [Hname|[suffix Hname]];
      cbn in Hname; discriminate.
  - exists h'. split; [exact Hrun|exact Hlog].
Defined.


(** The example graph has four entries with a value. *)
Lemma setEnvironmentVariables_reports_counts_witness :
  is_SerializedEnvGraph example_graph = true /\
  exists (h' : Host Script) calls regularVars secretVars,
    setEnvironmentVariables example_graph (scripted_host [] []) = (h', inr tt) /\
    log h' = calls /\
    last calls =
    Some (CoreInfo ("✅ Exported " +:+ nat_toString regularVars
                    +:+ " regular environment variables and "
                    +:+ nat_toString secretVars +:+ " secrets")) /\
    (regularVars + secretVars)%nat = 4%nat.
Proof.
  split; [reflexivity|].
  destruct (setEnvironmentVariables_reports_counts example_graph (scripted_host [] [])
              ltac:(reflexivity))
    as (h' & calls & regularVars & secretVars & Hrun & Hlog & Hlast & _ & _ & Hsum).
  exists h', calls, regularVars, secretVars.
  split; [exact Hrun|]. split; [exact Hlog|]. split; [exact Hlast|exact Hsum].
Defined.

(** The example graph as a blob: one output, nothing exported or masked. *)
Lemma outputJsonBlob_masks_nothing_witness :
  is_SerializedEnvGraph example_graph = true /\
  exists (h' : Host Script) text,
    outputJsonBlob example_graph (scripted_host [] []) = (h', inr tt) /\
    outputs h' = {["json-env" := text]} /\ env h' = ∅ /\ secrets h' = ∅.
Proof.
  split; [reflexivity|].
  destruct (outputJsonBlob_masks_nothing example_graph (scripted_host [] [])
              ltac:(reflexivity))
    as (h' & text & Hrun & Houtputs & Henv & Hsecrets & _).
  exists h', text. split; [exact Hrun|]. split; [|split; [exact Henv|exact Hsecrets]].
  rewrite Houtputs. apply insert_empty.
Defined.


(** An object without [config]. *)
Lemma export_routines_without_config_witness :
  setEnvironmentVariables (VObject [("sources", VArray [])]) (scripted_host [] [])
  = (scripted_host [] [], inl (TypeError "Cannot convert undefined or null to object")) /\
  outputJsonBlob (VObject [("sources", VArray [])]) (scripted_host [] [])
  = (scripted_host [] [], inl (TypeError "Cannot convert undefined or null to object")).
Proof.
  apply (export_routines_without_config (VObject [("sources", VArray [])])
           (scripted_host [] [])).
  left. reflexivity.
Defined.

(** A config whose second entry is [null]: the first entry stays masked and
    exported when the routine throws. *)
Lemma setEnvironmentVariables_stops_at_null_witness :
  exists h' : Host Script,
    setEnvironmentVariables
      (VObject
         [("config",
           VObject
             [("A", VObject [("value", VString "s3cret"); ("isSensitive", VBool true)]);
              ("B", VNull);
              ("C", VObject [("value", VNumber 1); ("isSensitive", VBool false)])])])
      (scripted_host [] [])
    = (h', inl (TypeError "Cannot read properties of null (reading 'value')")) /\
    log h' = [CoreSetSecret "s3cret"; CoreExportVariable "A" "s3cret"].
Proof.
  apply (setEnvironmentVariables_stops_at_null
           (VObject
              [("config",
                VObject
                  [("A", VObject [("value", VString "s3cret"); ("isSensitive", VBool true)]);
                   ("B", VNull);
                   ("C", VObject [("value", VNumber 1); ("isSensitive", VBool false)])])])
           (scripted_host [] [])
           [("A", VObject [("value", VString "s3cret"); ("isSensitive", VBool true)])]
           [("C", VObject [("value", VNumber 1); ("isSensitive", VBool false)])]
           "B" ltac:(reflexivity) ltac:(repeat constructor)).
Defined.

(** The load exits with zero after printing a Result Graph. *)
Lemma runVarlockLoad_machine_success_witness :
  runVarlockLoad machine_inputs (scripted_host [inr service_graph_text] [])
  = (scripted_host [] [],
     inr {| output := service_graph_text; errorCount := 0; envGraph := service_graph |}).
Proof.
  destruct (runVarlockLoad_machine_success (platform := scripted) machine_inputs
              (scripted_host [inr service_graph_text] []) (scripted_world [])
              service_graph_text ltac:(reflexivity) ltac:(reflexivity))
    as (Hgraph & _).
  apply (Hgraph service_graph). reflexivity.
Defined.

(** ** Whole runs at concrete inputs *)




(** The same graph with [output-format: yaml]. *)
Lemma run_unknown_format_witness :
  exists h',
    run (scripted_host [inr "1.0.0"; inr service_graph_text] [("output-format", "yaml")])
    = (h', inr tt) /\
    outputs h' = {["error-count" := "0"]} /\
    env h' = ∅ /\ secrets h' = ∅ /\ failed h' = false.
Proof.
  destruct (run_unknown_format (platform := scripted)
              (scripted_host [inr "1.0.0"; inr service_graph_text]
                 [("output-format", "yaml")])
              (scripted_world [inr service_graph_text]) (scripted_world [])
              "1.0.0" service_graph_text [".env"] service_graph
              ltac:(reflexivity) ltac:(vm_compute; discriminate)
              ltac:(vm_compute; discriminate) ltac:(reflexivity)
              ltac:(reflexivity) ltac:(reflexivity) ltac:(reflexivity)
              ltac:(reflexivity) ltac:(reflexivity))
    as (h' & Hrun & Houtputs & Henv & Hsecrets & Hfailed).
  exists h'. split; [exact Hrun|].
  split; [|split; [exact Henv|split; [exact Hsecrets|exact Hfailed]]].
  rewrite Houtputs. apply insert_empty.
Defined.

(** The validator is installed, in a directory that holds no environment
    file. *)
Lemma run_without_env_files_witness :
  exists h',
    run (initial_host {| responses := [inr "1.0.0"; inr service_graph_text];
                         directory := inr ["README.md"] |} []) = (h', inr tt) /\
    responses (world h') = [inr service_graph_text] /\
    failed h' = true /\ outputs h' = ∅.
Proof.
  destruct (run_without_env_files (platform := scripted)
              (initial_host {| responses := [inr "1.0.0"; inr service_graph_text];
                               directory := inr ["README.md"] |} [])
              {| responses := [inr service_graph_text]; directory := inr ["README.md"] |}
              "1.0.0" ltac:(reflexivity))
    as (h' & Hrun & Hworld & Hfailed & _ & Houtputs & _).
  { right. exists ["README.md"]. split; reflexivity. }
  exists h'. split; [exact Hrun|]. split; [by rewrite Hworld|].
  split; [exact Hfailed|exact Houtputs].
Defined.

(** On a platform where nothing runs, the installation fails. *)
Lemma run_install_fails_witness :
  exists h',
    run (initial_host tt []) = (h', inr tt) /\
    failed h' = true /\ outputs h' = ∅ /\ env h' = ∅ /\ secrets h' = ∅.
Proof.
  destruct (run_install_fails (platform := nothing_runs) (initial_host tt [])
              (fun w => ex_intro _ w (ex_intro _ spawn_error eq_refl)))
    as (h' & calls & Hrun & _ & _ & _ & Hfailed & Houtputs & Henv & Hsecrets).
  exists h'. split; [exact Hrun|]. split; [exact Hfailed|].
  split; [exact Houtputs|]. split; [exact Henv|exact Hsecrets].
Defined.

(** The shell of the load cannot be started, in machine mode. *)
Lemma run_hard_fault_witness :
  exists h',
    run (scripted_host [inr "1.0.0"; inl spawn_error] []) = (h', inr tt) /\
    last (log h') = Some (CoreSetFailed "Action failed: spawnSync /bin/sh ENOENT") /\
    failed h' = true /\ outputs h' = ∅.
Proof.
  destruct (run_hard_fault (platform := scripted)
              (scripted_host [inr "1.0.0"; inl spawn_error] [])
              (scripted_world [inl spawn_error]) (scripted_world [])
              "1.0.0" [".env"] spawn_error
              ltac:(reflexivity) ltac:(reflexivity) ltac:(reflexivity)
              ltac:(reflexivity) ltac:(left; reflexivity))
    as (h' & Hrun & Hlast & Hfailed & Houtputs & _).
  exists h'. split; [exact Hrun|]. split; [exact Hlast|].
  split; [exact Hfailed|exact Houtputs].
Defined.

(** The load exits with zero after printing [oops]. *)
Lemma run_zero_exit_not_json_witness :
  exists h',
    run (scripted_host [inr "1.0.0"; inr "oops"] []) = (h', inr tt) /\
    last (log h') = Some (CoreSetFailed "Action failed: Unexpected token in JSON") /\
    failed h' = true /\ outputs h' = ∅.
Proof.
  destruct (run_zero_exit_not_json (platform := scripted)
              (scripted_host [inr "1.0.0"; inr "oops"] [])
              (scripted_world [inr "oops"]) (scripted_world [])
              "1.0.0" "oops" "Unexpected token in JSON" [".env"]
              ltac:(reflexivity) ltac:(reflexivity) ltac:(reflexivity)
              ltac:(reflexivity) ltac:(reflexivity) ltac:(reflexivity))
    as (h' & Hrun & Hlast & Hfailed & Houtputs & _).
  exists h'. split; [exact Hrun|]. split; [exact Hlast|].
  split; [exact Hfailed|exact Houtputs].
Defined.

(** A run with [show-summary: true] in which the load prints two lines that
    name an error and exits with non-zero. *)
Lemma run_summary_outputs_witness :
  exists h',
    run (scripted_host
           [inr "1.0.0"; inl (exit_error "ERROR: PORT is missing; error: bad URL")]
           [("show-summary", "true")]) = (h', inr tt) /\
    outputs h' !! "summary" = Some "ERROR: PORT is missing; error: bad URL" /\
    outputs h' !! "error-count" = Some "2" /\
    failed h' = false.
Proof.
  destruct (run_summary_outputs (platform := scripted)
              (scripted_host
                 [inr "1.0.0"; inl (exit_error "ERROR: PORT is missing; error: bad URL")]
                 [("show-summary", "true")])
              (scripted_world [inl (exit_error "ERROR: PORT is missing; error: bad URL")])
              (scripted_world [])
              "1.0.0" "ERROR: PORT is missing; error: bad URL" [".env"]
              (inl (exit_error "ERROR: PORT is missing; error: bad URL")) 2
              ltac:(reflexivity) ltac:(reflexivity) ltac:(reflexivity)
              ltac:(reflexivity) ltac:(reflexivity))
    as (h' & Hrun & Houtputs & _ & _ & _ & _ & Hfailed).
  { right. exists (exit_error "ERROR: PORT is missing; error: bad URL").
    split; [reflexivity|]. split; [reflexivity|]. split; [discriminate|reflexivity]. }
  exists h'. split; [exact Hrun|]. rewrite Houtputs.
  split; [apply lookup_insert_eq|]. split; [|exact Hfailed].
  rewrite lookup_insert_ne by discriminate. apply lookup_insert_eq.
Defined.

(** The load prints an empty array, which is JSON and no graph. *)
Lemma run_graph_without_config_witness :
  exists h',
    run (scripted_host [inr "1.0.0"; inr "[]"] []) = (h', inr tt) /\
    failed h' = true /\ outputs h' = {["error-count" := "0"]} /\ env h' = ∅.
Proof.
  destruct (run_graph_without_config (platform := scripted)
              (scripted_host [inr "1.0.0"; inr "[]"] [])
              (scripted_world [inr "[]"]) (scripted_world [])
              "1.0.0" "[]" [".env"] (VArray [])
              ltac:(reflexivity) ltac:(left; reflexivity) ltac:(reflexivity)
              ltac:(reflexivity) ltac:(reflexivity) ltac:(reflexivity)
              ltac:(reflexivity) ltac:(reflexivity) ltac:(left; reflexivity))
    as (h' & Hrun & _ & Hfailed & Houtputs & Henv & _).
  exists h'. split; [exact Hrun|]. split; [exact Hfailed|]. split; [|exact Henv].
  rewrite Houtputs. apply insert_empty.
Defined.

(** The load prints [null]. *)
Lemma run_falsy_json_witness :
  exists h',
    run (scripted_host [inr "1.0.0"; inr "null"] []) = (h', inr tt) /\
    outputs h' = {["error-count" := "0"]} /\ env h' = ∅ /\ failed h' = false.
Proof.
  destruct (run_falsy_json (platform := scripted)
              (scripted_host [inr "1.0.0"; inr "null"] [])
              (scripted_world [inr "null"]) (scripted_world [])
              "1.0.0" "null" [".env"] VNull
              ltac:(reflexivity) ltac:(reflexivity) ltac:(reflexivity)
              ltac:(reflexivity) ltac:(reflexivity) ltac:(reflexivity)
              ltac:(reflexivity))
    as (h' & Hrun & _ & Houtputs & Henv & _ & Hfailed).
  exists h'. split; [exact Hrun|]. split; [|split; [exact Henv|exact Hfailed]].
  rewrite Houtputs. apply insert_empty.
Defined.

(** The load prints [oops] and exits with non-zero, with the default
    inputs: the run fails though [fail-on-error] is not set. *)
Lemma run_unparseable_output_witness :
  exists h',
    run (scripted_host [inr "1.0.0"; inl (exit_error "oops")] []) = (h', inr tt) /\
    failOnError (read_inputs (scripted_host [inr "1.0.0"; inl (exit_error "oops")] []))
    = false /\
    failed h' = true /\ outputs h' = {["error-count" := "0"]}.
Proof.
  destruct (run_unparseable_output (platform := scripted)
              (scripted_host [inr "1.0.0"; inl (exit_error "oops")] [])
              (scripted_world [inl (exit_error "oops")]) (scripted_world [])
              "1.0.0" "oops" "Unexpected token in JSON" [".env"] (exit_error "oops")
              ltac:(reflexivity) ltac:(reflexivity) ltac:(reflexivity)
              ltac:(reflexivity) ltac:(reflexivity) ltac:(reflexivity)
              ltac:(discriminate) ltac:(reflexivity))
    as (h' & Hrun & _ & _ & Hfailed & Houtputs & _).
  exists h'. split; [exact Hrun|]. split; [reflexivity|]. split; [exact Hfailed|].
  rewrite Houtputs. apply insert_empty.
Defined.

(** The npm installer fails and the script fetched by curl succeeds. *)
Lemma installVarlock_fallback_witness :
  exists h',
    installVarlock (scripted_host [inl spawn_error; inr ""] []) = (h', inr tt) /\
    world h' = scripted_world [] /\ failed h' = false.
Proof.
  destruct (installVarlock_fallback (platform := scripted)
              (scripted_host [inl spawn_error; inr ""] []))
    as (_ & Hcurl & _).
  destruct (Hcurl (scripted_world [inr ""]) spawn_error (scripted_world []) ""
              ltac:(reflexivity) ltac:(reflexivity))
    as (h' & Hrun & Hworld & Hfailed & _).
  exists h'. split; [exact Hrun|]. split; [exact Hworld|exact Hfailed].
Defined.

(** Only [working-directory] is given. *)
Lemma getInputs_defaults_witness :
  exists ins,
    getInputs (scripted_host [] [("working-directory", "app")])
    = (scripted_host [] [("working-directory", "app")], inr ins) /\
    workingDirectory ins = "app" /\ outputFormat ins = "env".
Proof.
  destruct (getInputs_defaults (scripted_host [] [("working-directory", "app")]))
    as (ins & Hrun & _ & _ & _ & _ & Hdir & _ & _ & Hformat).
  exists ins. split; [exact Hrun|]. split.
  - apply Hdir; [reflexivity|discriminate].
  - apply Hformat. left. reflexivity.
Defined.
